(** * Accessible AI Translator: session state machine and AI gateway

    A shallow embedding of [App] (the React component holding the session
    state), of [services/geminiService.ts] and of [types.ts], and the
    properties of the language-detection flow, of [handleGenerate] and of
    [handleSwapLanguages] that the specification lists.

    Strings.  A JavaScript string is modelled by a [string] whose
    characters are the code units U+0000 to U+00FF.  [trim] and
    [toLowerCase] are the ECMAScript functions restricted to that range.

    Asynchrony.  An [async] function is a finite tree: it runs up to its
    next [await], where the rest of it is kept as a continuation until the
    awaited promise settles.  A continuation is built from the values of
    the render in which it was created, exactly as a JavaScript closure
    is; state setters act on whatever the state is when they run.

    Rendering.  The state updates of one handler or callback are applied
    together; the effects whose dependencies changed then run, in the
    order of the source, and again after an effect changed a dependency.

    The endpoint.  A request to the external service is answered by a
    response whose text is a string, or fails. *)

From Stdlib Require Import String Ascii List ZArith NArith Bool DecimalString.
Import ListNotations.

Local Open Scope list_scope.
Local Open Scope string_scope.

(* ================================================================== *)
(** ** JavaScript strings *)
(* ================================================================== *)

Module JsString.

(** White space and line terminators of ECMAScript below U+0100:
    TAB, LF, VT, FF, CR, SP and NBSP. *)
Definition isWhiteSpace (c : ascii) : bool :=
  let n := N_of_ascii c in
  ((9 <=? n) && (n <=? 13) || (n =? 32) || (n =? 160))%N.

Fixpoint trimStart (s : string) : string :=
  match s with
  | EmptyString => EmptyString
  | String c r => if isWhiteSpace c then trimStart r else s
  end.

Fixpoint trimEnd (s : string) : string :=
  match s with
  | EmptyString => EmptyString
  | String c r =>
      match trimEnd r with
      | EmptyString => if isWhiteSpace c then EmptyString else String c EmptyString
      | r' => String c r'
      end
  end.

(** [String.prototype.trim] *)
Definition trim (s : string) : string := trimEnd (trimStart s).

(** Lower-case mapping of one code unit: A-Z, and the capital letters
    U+00C0 to U+00DE without the multiplication sign U+00D7. *)
Definition lowerChar (c : ascii) : ascii :=
  let n := N_of_ascii c in
  if ((65 <=? n) && (n <=? 90) || (192 <=? n) && (n <=? 222) && negb (n =? 215))%N
  then ascii_of_N (n + 32) else c.

(** [String.prototype.toLowerCase] *)
Fixpoint toLowerCase (s : string) : string :=
  match s with
  | EmptyString => EmptyString
  | String c r => String (lowerChar c) (toLowerCase r)
  end.

(** [String.prototype.split] with a one-character separator. *)
Fixpoint split (sep : ascii) (s : string) : list string :=
  match s with
  | EmptyString => [EmptyString]
  | String c r =>
      if Ascii.eqb c sep then EmptyString :: split sep r
      else match split sep r with
           | piece :: pieces => String c piece :: pieces
           | [] => [String c EmptyString]
           end
  end.

(** Truthiness of a string: only the empty string is falsy. *)
Definition truthy (s : string) : bool :=
  match s with EmptyString => false | String _ _ => true end.

(** The double-quote character, as a one-character string. *)
Definition dquote : string := String (ascii_of_N 34) EmptyString.

(** A line break inside a template literal. *)
Definition newline : string := String (ascii_of_N 10) EmptyString.

(** [`${n}`] for an integral Number. *)
Definition ofNumber (n : Z) : string := NilZero.string_of_int (Z.to_int n).

End JsString.

Import JsString.

(* ================================================================== *)
(** ** types.ts *)
(* ================================================================== *)

Inductive TranslationMode : Type :=
| NORMAL
| EASY_READ
| AAC.

Record Language : Type := mkLanguage { code : string; name : string }.

(** [Array.prototype.find] is [List.find]: the first element satisfying
    the predicate, [None] standing for [undefined]. *)

(* ================================================================== *)
(** ** services/geminiService.ts *)
(* ================================================================== *)

Module geminiService.

(** What is sent to [ai.models.generateContent]. *)
Inductive Contents : Type :=
| Prompt (prompt : string)
| Parts (data : option string) (mimeType text : string).

Record Request : Type := mkRequest { model : string; contents : Contents }.

(** What the endpoint answers: a response whose [text] is read, or a
    rejection. *)
Inductive Response : Type :=
| ResponseText (text : string)
| EndpointError (message : string).

(** A settled promise; every rejection of this program is an [Error]
    carrying a message. *)
Inductive Promise (A : Type) : Type :=
| Resolved (value : A)
| Rejected (message : string).
Arguments Resolved {A} value.
Arguments Rejected {A} message.

(** The body of an [async] function of the service. *)
Inductive Async (A : Type) : Type :=
| Return (value : A)
| Throw (message : string)
| Await (req : Request) (k : Response -> Async A).
Arguments Return {A} value.
Arguments Throw {A} message.
Arguments Await {A} req k.

(** [await ai.models.generateContent(req)] followed by [.text]. *)
Definition awaitText {A : Type} (req : Request) (k : string -> Async A) : Async A :=
  Await req (fun r =>
    match r with
    | ResponseText t => k t
    | EndpointError m => Throw m
    end).

(** [try { body } catch (error) { handler }] *)
Fixpoint tryCatch {A : Type} (body : Async A) (handler : string -> Async A) : Async A :=
  match body with
  | Return a => Return a
  | Throw m => handler m
  | Await req k => Await req (fun r => tryCatch (k r) handler)
  end.

(** Running a body against an endpoint: the settled promise and the
    requests made, in order. *)
Fixpoint exec {A : Type} (endpoint : Request -> Response) (p : Async A)
  : Promise A * list Request :=
  match p with
  | Return a => (Resolved a, [])
  | Throw m => (Rejected m, [])
  | Await req k =>
      let '(r, log) := exec endpoint (k (endpoint req)) in (r, req :: log)
  end.

Definition geminiFlash : string := "gemini-2.5-flash".

Definition generateContent (prompt : string) : Async string :=
  tryCatch
    (awaitText (mkRequest geminiFlash (Prompt prompt)) (fun text => Return text))
    (fun _ => Throw "Failed to get response from AI model.").

Section WithCatalog.

(** [LANGUAGES] of [constants.ts]. *)
Variable LANGUAGES : list Language.

(** The predicate given to [LANGUAGES.find] in [detectLanguage]. *)
Definition nameMatches (langName : string) (lang : Language) : bool :=
  toLowerCase (name lang) =? toLowerCase (trim langName).

Definition detectPrompt (text : string) : string :=
  "Detect the language of the following text. Respond with ONLY the English name of the language (e.g., "
  ++ dquote ++ "English" ++ dquote ++ ", " ++ dquote ++ "French" ++ dquote ++ ", "
  ++ dquote ++ "Japanese" ++ dquote ++ "). Text: " ++ dquote ++ text ++ dquote.

Definition detectLanguage (text : string) : Async string :=
  let prompt := detectPrompt text in
  tryCatch
    (awaitText (mkRequest geminiFlash (Prompt prompt)) (fun langName =>
       match find (nameMatches langName) LANGUAGES with
       | Some foundLang => Return (code foundLang)
       | None =>
           Throw ("Detected language " ++ dquote ++ langName ++ dquote ++ " is not supported.")
       end))
    (fun _ => Throw "Failed to detect language.").

End WithCatalog.

Definition extractTextFromImage (base64Image : option string) (mimeType : string)
  : Async string :=
  tryCatch
    (awaitText
       (mkRequest geminiFlash
          (Parts base64Image mimeType
             "Extract all text from this image. If no text is found, return an empty string."))
       (fun text => Return text))
    (fun _ => Throw "Failed to extract text from image.").

Definition translateText (text sourceLang targetLang : string) : Async string :=
  let prompt :=
    "Translate the following text from " ++ sourceLang ++ " to " ++ targetLang
    ++ ". Provide only the translated text, without any introductory phrases. Text: "
    ++ dquote ++ text ++ dquote in
  generateContent prompt.

Definition simplifyText (text lang : string) (level : Z) : Async string :=
  let prompt :=
    "Rewrite the following text in " ++ lang
    ++ " to be very simple and easy to understand, at a simplicity level of "
    ++ ofNumber level
    ++ " out of 15 (where 15 is the simplest). Provide only the simplified text. Text: "
    ++ dquote ++ text ++ dquote in
  generateContent prompt.

Definition generateAAC (text lang : string) : Async string :=
  let prompt :=
    "You are an expert in Augmentative and Alternative Communication (AAC) systems. Your task is to convert the following text in "
    ++ lang
    ++ " into a sequence of core vocabulary words suitable for an AAC device."
    ++ newline ++ newline
    ++ "Follow these critical AAC standards:" ++ newline
    ++ "1.  **Simplify Grammar:** Reduce the sentence to its essential meaning. Remove articles (a, an, the), verb conjugations, plurals, and filler words."
    ++ newline
    ++ "2.  **Focus on Core Words:** Prioritize high-frequency, reusable words (e.g., "
    ++ dquote ++ "I" ++ dquote ++ ", " ++ dquote ++ "want" ++ dquote ++ ", "
    ++ dquote ++ "go" ++ dquote ++ ", " ++ dquote ++ "more" ++ dquote ++ ", "
    ++ dquote ++ "help" ++ dquote ++ ", " ++ dquote ++ "drink" ++ dquote ++ ", "
    ++ dquote ++ "eat" ++ dquote ++ ")." ++ newline
    ++ "3.  **Extract Intent:** Identify the primary intent of the message, not just the literal words."
    ++ newline
    ++ "4.  **Output Format:** Separate each word with a hyphen surrounded by spaces ( - ). Provide ONLY the keyword sequence."
    ++ newline ++ newline
    ++ "For example, for the input " ++ dquote
    ++ "I would really like to have a big glass of cold water because I'm very thirsty"
    ++ dquote ++ ", the correct output is: " ++ dquote ++ "I - want - drink - water"
    ++ dquote ++ "." ++ newline ++ newline
    ++ "Now, process the following text: " ++ dquote ++ text ++ dquote in
  generateContent prompt.

End geminiService.

(* ================================================================== *)
(** ** The App component: session state *)
(* ================================================================== *)

Module App.

Import geminiService.

Definition DETECT_LANGUAGE_CODE : string := "auto".

(** The [useState] cells of [App]. *)
Record Session : Type := mkSession {
  mode : TranslationMode;
  inputText : string;
  outputText : string;
  sourceLang : string;
  targetLang : string;
  easyReadLevel : Z;
  isLoading : bool;
  isDetectingLang : bool;
  error : option string;
  imagePreview : option string;
  isCameraOpen : bool
}.

(** The initial values given to [useState]. *)
Definition initialSession : Session :=
  mkSession NORMAL EmptyString EmptyString DETECT_LANGUAGE_CODE "it" 8
            false false None None false.

(** The state setters. *)
Definition setMode (v : TranslationMode) (s : Session) : Session :=
  mkSession v (inputText s) (outputText s) (sourceLang s) (targetLang s)
            (easyReadLevel s) (isLoading s) (isDetectingLang s) (error s)
            (imagePreview s) (isCameraOpen s).

Definition setInputText (v : string) (s : Session) : Session :=
  mkSession (mode s) v (outputText s) (sourceLang s) (targetLang s)
            (easyReadLevel s) (isLoading s) (isDetectingLang s) (error s)
            (imagePreview s) (isCameraOpen s).

Definition setOutputText (v : string) (s : Session) : Session :=
  mkSession (mode s) (inputText s) v (sourceLang s) (targetLang s)
            (easyReadLevel s) (isLoading s) (isDetectingLang s) (error s)
            (imagePreview s) (isCameraOpen s).

Definition setSourceLang (v : string) (s : Session) : Session :=
  mkSession (mode s) (inputText s) (outputText s) v (targetLang s)
            (easyReadLevel s) (isLoading s) (isDetectingLang s) (error s)
            (imagePreview s) (isCameraOpen s).

Definition setTargetLang (v : string) (s : Session) : Session :=
  mkSession (mode s) (inputText s) (outputText s) (sourceLang s) v
            (easyReadLevel s) (isLoading s) (isDetectingLang s) (error s)
            (imagePreview s) (isCameraOpen s).

Definition setEasyReadLevel (v : Z) (s : Session) : Session :=
  mkSession (mode s) (inputText s) (outputText s) (sourceLang s) (targetLang s)
            v (isLoading s) (isDetectingLang s) (error s)
            (imagePreview s) (isCameraOpen s).

Definition setIsLoading (v : bool) (s : Session) : Session :=
  mkSession (mode s) (inputText s) (outputText s) (sourceLang s) (targetLang s)
            (easyReadLevel s) v (isDetectingLang s) (error s)
            (imagePreview s) (isCameraOpen s).

Definition setIsDetectingLang (v : bool) (s : Session) : Session :=
  mkSession (mode s) (inputText s) (outputText s) (sourceLang s) (targetLang s)
            (easyReadLevel s) (isLoading s) v (error s)
            (imagePreview s) (isCameraOpen s).

Definition setError (v : option string) (s : Session) : Session :=
  mkSession (mode s) (inputText s) (outputText s) (sourceLang s) (targetLang s)
            (easyReadLevel s) (isLoading s) (isDetectingLang s) v
            (imagePreview s) (isCameraOpen s).

Definition setImagePreview (v : option string) (s : Session) : Session :=
  mkSession (mode s) (inputText s) (outputText s) (sourceLang s) (targetLang s)
            (easyReadLevel s) (isLoading s) (isDetectingLang s) (error s)
            v (isCameraOpen s).

Definition setIsCameraOpen (v : bool) (s : Session) : Session :=
  mkSession (mode s) (inputText s) (outputText s) (sourceLang s) (targetLang s)
            (easyReadLevel s) (isLoading s) (isDetectingLang s) (error s)
            (imagePreview s) v.

Definition modeIs (m1 m2 : TranslationMode) : bool :=
  match m1, m2 with
  | NORMAL, NORMAL | EASY_READ, EASY_READ | AAC, AAC => true
  | _, _ => false
  end.

(** [!inputText.trim()] *)
Definition isBlank (text : string) : bool := negb (truthy (trim text)).

(** The calls [App] makes on the service. *)
Inductive GatewayCall : Type :=
| detectLanguageCall (text : string)
| extractTextFromImageCall (base64Image : option string) (mimeType : string)
| translateTextCall (text sourceLang targetLang : string)
| simplifyTextCall (text lang : string) (level : Z)
| generateAACCall (text lang : string).

(** The body of an event handler or callback of [App]: state updates, and
    awaits on a service call whose continuation receives the settled
    promise. *)
Inductive Task : Type :=
| Done
| Update (f : Session -> Session) (k : Task)
| AwaitGateway (call : GatewayCall) (k : Promise string -> Task).

(** What [App] holds between two events: the state, the callback of the
    pending debounce timeout if there is one, the service calls that
    have not settled yet, each with the continuation awaiting it, and
    the type of each file a [FileReader] is still reading. *)
Record Runtime : Type := mkRuntime {
  session : Session;
  debounceTimeout : option Task;
  inFlight : list (GatewayCall * (Promise string -> Task));
  fileReaders : list string
}.

Definition withSession (s : Session) (w : Runtime) : Runtime :=
  mkRuntime s (debounceTimeout w) (inFlight w) (fileReaders w).

Definition withDebounceTimeout (t : option Task) (w : Runtime) : Runtime :=
  mkRuntime (session w) t (inFlight w) (fileReaders w).

Definition withInFlight (l : list (GatewayCall * (Promise string -> Task))) (w : Runtime)
  : Runtime :=
  mkRuntime (session w) (debounceTimeout w) l (fileReaders w).

Definition withFileReaders (l : list string) (w : Runtime) : Runtime :=
  mkRuntime (session w) (debounceTimeout w) (inFlight w) l.

(** Runs a body until it finishes or reaches an [await]. *)
Fixpoint start (t : Task) (w : Runtime) : Runtime :=
  match t with
  | Done => w
  | Update f k => start k (withSession (f (session w)) w)
  | AwaitGateway call k => withInFlight (inFlight w ++ [(call, k)])%list w
  end.

(** Runs a body to its end with every awaited call settled at once by
    [gateway]: the final state and the calls made, in order. *)
Fixpoint run (gateway : GatewayCall -> Promise string) (t : Task) (s : Session)
  : Session * list GatewayCall :=
  match t with
  | Done => (s, [])
  | Update f k => run gateway k (f s)
  | AwaitGateway call k =>
      let '(s', calls) := run gateway (k (gateway call)) s in (s', call :: calls)
  end.

Section WithCatalog.

(** [LANGUAGES] of [constants.ts]. *)
Variable LANGUAGES : list Language.

(** The service function behind each call. *)
Definition perform (call : GatewayCall) : Async string :=
  match call with
  | detectLanguageCall text => detectLanguage LANGUAGES text
  | extractTextFromImageCall base64Image mimeType => extractTextFromImage base64Image mimeType
  | translateTextCall text sourceLang targetLang => translateText text sourceLang targetLang
  | simplifyTextCall text lang level => simplifyText text lang level
  | generateAACCall text lang => generateAAC text lang
  end.

(** The promise a call settles to when the endpoint answers [resp]. *)
Definition settle (call : GatewayCall) (resp : Response) : Promise string :=
  fst (exec (fun _ => resp) (perform call)).

(** *** Derived lists *)

Definition sourceLanguages : list Language :=
  mkLanguage DETECT_LANGUAGE_CODE "Detect Language" :: LANGUAGES.

Definition targetLanguages (sourceLang : string) : list Language :=
  filter (fun lang => negb (code lang =? sourceLang)) LANGUAGES.

(** *** Debounced language detection *)

(** [LANGUAGES.find(l => l.code !== detectedLangCode && l.code === 'en')
     || LANGUAGES.find(l => l.code !== detectedLangCode)] *)
Definition newTarget (detectedLangCode : string) : option Language :=
  match find (fun l => negb (code l =? detectedLangCode) && (code l =? "en")) LANGUAGES with
  | Some l => Some l
  | None => find (fun l => negb (code l =? detectedLangCode)) LANGUAGES
  end.

(** The [finally] block of the timeout callback. *)
Definition detectionFinally : Task := Update (setIsDetectingLang false) Done.

(** The timeout callback after its [await]; [r] holds the values of the
    render whose effect created the callback, which is what [sourceLang]
    and [targetLang] denote inside it. *)
Definition detectionContinuation (r : Session) (p : Promise string) : Task :=
  match p with
  | Resolved detectedLangCode =>
      if sourceLang r =? DETECT_LANGUAGE_CODE then
        Update (setSourceLang detectedLangCode)
          (if targetLang r =? detectedLangCode then
             match newTarget detectedLangCode with
             | Some l => Update (setTargetLang (code l)) detectionFinally
             | None => detectionFinally
             end
           else detectionFinally)
      else detectionFinally
  | Rejected _ =>
      if sourceLang r =? DETECT_LANGUAGE_CODE then
        Update (setSourceLang "en") detectionFinally
      else detectionFinally
  end.

(** The callback given to [window.setTimeout]. *)
Definition detectionTimeout (r : Session) : Task :=
  AwaitGateway (detectLanguageCall (inputText r)) (detectionContinuation r).

(** The first effect, for the render values [r]: the cleanup of the
    previous run and [detectLanguage()] both clear the pending timeout;
    then a new timeout is set, or the detecting flag is lowered. *)
Definition detectionEffect (r : Session) (w : Runtime) : Runtime :=
  if (sourceLang r =? DETECT_LANGUAGE_CODE) && (10 <? String.length (trim (inputText r)))%nat
  then withDebounceTimeout (Some (detectionTimeout r))
         (withSession (setIsDetectingLang true (session w)) w)
  else withDebounceTimeout None (withSession (setIsDetectingLang false (session w)) w).

(** The second effect: a cleared input resets the source to auto-detect. *)
Definition resetEffect (r : Session) (w : Runtime) : Runtime :=
  if isBlank (inputText r) && negb (sourceLang r =? DETECT_LANGUAGE_CODE)
  then withSession (setSourceLang DETECT_LANGUAGE_CODE (session w)) w
  else w.

(** Dependency arrays [[inputText, sourceLang, targetLang]] and
    [[inputText, sourceLang]]. *)
Definition sameDetectionDeps (a b : Session) : bool :=
  (inputText a =? inputText b) && (sourceLang a =? sourceLang b)
  && (targetLang a =? targetLang b).

Definition sameResetDeps (a b : Session) : bool :=
  (inputText a =? inputText b) && (sourceLang a =? sourceLang b).

(** The effects of one render: [prev] is what the previous render saw,
    the state of [w] what this one sees. *)
Definition runEffects (prev : Session) (w : Runtime) : Runtime :=
  let r := session w in
  let w1 := if sameDetectionDeps prev r then w else detectionEffect r w in
  if sameResetDeps prev r then w1 else resetEffect r w1.

(** Renders until no effect changes a dependency any more. *)
Fixpoint commit (fuel : nat) (prev : Session) (w : Runtime) : Runtime :=
  match fuel with
  | O => w
  | S n =>
      let r := session w in
      let w' := runEffects prev w in
      if sameDetectionDeps r (session w') then w' else commit n r w'
  end.

(** *** Event handlers *)

(** The synchronous part of [handleImageUpload]; the reading of the file
    is started by the event loop. *)
Definition handleImageUpload : Task :=
  Update (setIsLoading true) (Update (setError None) Done).

(** [handleCaptureFromCamera]: [handleImageUpload(file)], then
    [setIsCameraOpen(false)]. *)
Definition handleCaptureFromCamera : Task :=
  Update (setIsLoading true) (Update (setError None) (Update (setIsCameraOpen false) Done)).

(** [reader.onloadend] after its [await]. *)
Definition imageContinuation (p : Promise string) : Task :=
  match p with
  | Resolved text => Update (setInputText text) (Update (setIsLoading false) Done)
  | Rejected message => Update (setError (Some message)) (Update (setIsLoading false) Done)
  end.

(** [reader.onloadend] for a file of type [fileType] read as the data URL
    [result]. *)
Definition readerOnLoadEnd (fileType result : string) : Task :=
  let base64String := nth_error (split (ascii_of_N 44) result) 1 in
  Update (setImagePreview (Some result))
    (AwaitGateway (extractTextFromImageCall base64String fileType) imageContinuation).

(** [reader.onerror]. *)
Definition readerOnError : Task :=
  Update (setError (Some "Failed to read the image file."))
    (Update (setIsLoading false) Done).

Definition handleSwapLanguages (r : Session) : Task :=
  if modeIs (mode r) NORMAL && negb (sourceLang r =? DETECT_LANGUAGE_CODE) then
    Update (setSourceLang (targetLang r)) (Update (setTargetLang (sourceLang r)) Done)
  else Done.

(** [LANGUAGES.find(l => l.code === c)?.name || c] *)
Definition langName (c : string) : string :=
  match find (fun l => code l =? c) LANGUAGES with
  | Some l => if truthy (name l) then name l else c
  | None => c
  end.

(** [handleGenerate] after its [await]: the rest of the [try] block, or
    the [catch] block, and then the [finally] block. *)
Definition generateContinuation (p : Promise string) : Task :=
  match p with
  | Resolved result => Update (setOutputText result) (Update (setIsLoading false) Done)
  | Rejected message => Update (setError (Some message)) (Update (setIsLoading false) Done)
  end.

(** The call chosen by the [switch] on the mode. *)
Definition generateCall (r : Session) : GatewayCall :=
  let sourceLangName := langName (sourceLang r) in
  let targetLangName := langName (targetLang r) in
  match mode r with
  | NORMAL => translateTextCall (inputText r) sourceLangName targetLangName
  | EASY_READ => simplifyTextCall (inputText r) sourceLangName (easyReadLevel r)
  | AAC => generateAACCall (inputText r) sourceLangName
  end.

Definition handleGenerate (r : Session) : Task :=
  if isBlank (inputText r) || (sourceLang r =? DETECT_LANGUAGE_CODE) then Done
  else
    Update (setIsLoading true)
      (Update (setError None)
         (Update (setOutputText EmptyString)
            (AwaitGateway (generateCall r) generateContinuation))).

(** *** The event loop *)

(** What can happen to a mounted [App]: the user acts on a control, picks
    or drops an image file, or captures one with the camera; the [i]-th
    file reader finishes; the debounce timeout fires; the endpoint
    answers the [i]-th call in flight. *)
Inductive Event : Type :=
| ChangeMode (m : TranslationMode)
| ChangeInputText (text : string)
| ChangeSourceLang (c : string)
| ChangeTargetLang (c : string)
| ChangeEasyReadLevel (n : Z)
| ClickSwap
| ClickGenerate
| SelectImage (fileType : string)
| OpenCamera
| CloseCamera
| CaptureFromCamera
| ReaderLoads (i : nat) (result : string)
| ReaderFails (i : nat)
| TimeoutFires
| GatewaySettles (i : nat) (resp : Response).

Fixpoint removeAt {A : Type} (i : nat) (l : list A) : list A :=
  match l, i with
  | [], _ => []
  | _ :: t, O => t
  | x :: t, S j => x :: removeAt j t
  end.

(** The handler or callback run by an event; handlers are those of the
    current render. *)
Definition handle (e : Event) (w : Runtime) : Runtime :=
  let r := session w in
  match e with
  | ChangeMode m => start (Update (setMode m) Done) w
  | ChangeInputText text => start (Update (setInputText text) Done) w
  | ChangeSourceLang c => start (Update (setSourceLang c) Done) w
  | ChangeTargetLang c => start (Update (setTargetLang c) Done) w
  | ChangeEasyReadLevel n => start (Update (setEasyReadLevel n) Done) w
  | ClickSwap => start (handleSwapLanguages r) w
  | ClickGenerate => start (handleGenerate r) w
  | SelectImage fileType =>
      start handleImageUpload (withFileReaders (fileReaders w ++ [fileType])%list w)
  | OpenCamera => start (Update (setIsCameraOpen true) Done) w
  | CloseCamera => start (Update (setIsCameraOpen false) Done) w
  | CaptureFromCamera =>
      start handleCaptureFromCamera
            (withFileReaders (fileReaders w ++ ["image/jpeg"])%list w)
  | ReaderLoads i result =>
      match nth_error (fileReaders w) i with
      | Some fileType =>
          start (readerOnLoadEnd fileType result)
                (withFileReaders (removeAt i (fileReaders w)) w)
      | None => w
      end
  | ReaderFails i =>
      match nth_error (fileReaders w) i with
      | Some _ => start readerOnError (withFileReaders (removeAt i (fileReaders w)) w)
      | None => w
      end
  | TimeoutFires =>
      match debounceTimeout w with
      | Some t => start t (withDebounceTimeout None w)
      | None => w
      end
  | GatewaySettles i resp =>
      match nth_error (inFlight w) i with
      | Some (call, k) =>
          start (k (settle call resp)) (withInFlight (removeAt i (inFlight w)) w)
      | None => w
      end
  end.

(** One turn of the event loop: the handler, then the renders and effects
    its state updates cause. *)
Definition step (w : Runtime) (e : Event) : Runtime :=
  commit 2 (session w) (handle e w).

Definition runEvents (w : Runtime) (es : list Event) : Runtime :=
  fold_left step es w.

Definition hasCode (c : string) (langs : list Language) : bool :=
  existsb (fun lang => code lang =? c) langs.

(** Whether the rendered page lets the event happen: the options of the
    two selectors, the [disabled] attributes, the controls shown for the
    mode, the [maxLength] of the text area.  A file can be dropped at any
    time, and the capture of the camera modal is delivered by a callback
    that may run after the modal has closed. *)
Definition enabled (w : Runtime) (e : Event) : bool :=
  let r := session w in
  match e with
  | ChangeMode _ => true
  | ChangeInputText text => (N.of_nat (String.length text) <=? 20000)%N
  | ChangeSourceLang c => negb (isDetectingLang r) && hasCode c sourceLanguages
  | ChangeTargetLang c =>
      modeIs (mode r) NORMAL && hasCode c (targetLanguages (sourceLang r))
  | ChangeEasyReadLevel n => modeIs (mode r) EASY_READ && (1 <=? n)%Z && (n <=? 15)%Z
  | ClickSwap => modeIs (mode r) NORMAL && negb (sourceLang r =? DETECT_LANGUAGE_CODE)
  | ClickGenerate =>
      negb (isLoading r || isBlank (inputText r) || (sourceLang r =? DETECT_LANGUAGE_CODE))
  | SelectImage _ => true
  | OpenCamera => match imagePreview r with None => true | Some _ => false end
  | CloseCamera => isCameraOpen r
  | CaptureFromCamera => true
  | ReaderLoads i _ => (i <? List.length (fileReaders w))%nat
  | ReaderFails i => (i <? List.length (fileReaders w))%nat
  | TimeoutFires => match debounceTimeout w with Some _ => true | None => false end
  | GatewaySettles i _ => (i <? List.length (inFlight w))%nat
  end.

(** The effects of the first render. *)
Definition mount : Runtime :=
  resetEffect initialSession
    (detectionEffect initialSession (mkRuntime initialSession None [] [])).

Inductive reachable : Runtime -> Prop :=
| reachable_mount : reachable mount
| reachable_step (w : Runtime) (e : Event) :
    reachable w -> enabled w e = true -> reachable (step w e).

End WithCatalog.

End App.

(* ================================================================== *)
(** ** A catalog for concrete runs *)
(* ================================================================== *)

(** Modelled from the spec: [constants.ts], which defines [LANGUAGES], is
    not among the sources.  The specification describes the catalog as a
    static list of entries with a unique code and a display name; the
    code refers to the codes [en] and [it] and the specification to
    [fr].  The definitions and general theorems take the catalog as a
    parameter; this one is used for concrete runs only. *)
Definition exampleLanguages : list Language :=
  [ mkLanguage "en" "English";
    mkLanguage "it" "Italian";
    mkLanguage "fr" "French";
    mkLanguage "de" "German";
    mkLanguage "es" "Spanish";
    mkLanguage "ja" "Japanese" ].

(* ================================================================== *)
(** ** Vocabulary of the properties *)
(* ================================================================== *)

Import geminiService App.

(** Two names are the same up to letter case. *)
Definition equalIgnoringCase (a b : string) : Prop := toLowerCase a = toLowerCase b.

(** The one request [detectLanguage] sends. *)
Definition detectRequest (text : string) : Request :=
  mkRequest geminiFlash (Prompt (detectPrompt text)).

(** The catalog with the entry of code [c] removed, in the words of the
    specification: the entry is looked up by its code and taken out, the
    others stay in place. *)
Fixpoint catalogWithout (c : string) (langs : list Language) : list Language :=
  match langs with
  | [] => []
  | lang :: rest => if code lang =? c then rest else lang :: catalogWithout c rest
  end.

(** The fields the effects leave alone. *)
Definition sameButDetection (a b : Session) : Prop :=
  mode a = mode b /\ inputText a = inputText b /\ outputText a = outputText b
  /\ targetLang a = targetLang b /\ easyReadLevel a = easyReadLevel b
  /\ isLoading a = isLoading b /\ error a = error b
  /\ imagePreview a = imagePreview b /\ isCameraOpen a = isCameraOpen b.

(** A concrete source language is only ever kept with a non-blank input. *)
Definition stable (s : Session) : Prop :=
  sourceLang s <> DETECT_LANGUAGE_CODE -> isBlank (inputText s) = false.

Section Vocabulary.

Variable LANGUAGES : list Language.

(** A pending timeout is the detection callback of a render that saw the
    source language on auto-detect. *)
Definition timerOK (t : option Task) : Prop :=
  match t with
  | None => True
  | Some t =>
      exists r, sourceLang r = DETECT_LANGUAGE_CODE /\ t = detectionTimeout LANGUAGES r
  end.

(** A call in flight is a detection awaited by the callback of such a
    render, a text extraction awaited by [reader.onloadend], or a
    generation awaited by [handleGenerate]. *)
Definition pendingOK (entry : GatewayCall * (Promise string -> Task)) : Prop :=
  match fst entry with
  | detectLanguageCall text =>
      exists r, sourceLang r = DETECT_LANGUAGE_CODE /\ text = inputText r
                /\ snd entry = detectionContinuation LANGUAGES r
  | extractTextFromImageCall _ _ => snd entry = imageContinuation
  | _ => snd entry = generateContinuation
  end.

(** What every reachable state satisfies: the target language is not the
    sentinel, the session is stable, and the pending timeout and the
    calls in flight are those the code creates. *)
Definition invariant (w : Runtime) : Prop :=
  targetLang (session w) <> DETECT_LANGUAGE_CODE
  /\ stable (session w)
  /\ Forall pendingOK (inFlight w)
  /\ timerOK (debounceTimeout w).

(** The three parts of the invariant that a handler has to keep; the
    fourth is restored by the renders that follow. *)
Definition handlerKeeps (w : Runtime) : Prop :=
  targetLang (session w) <> DETECT_LANGUAGE_CODE
  /\ Forall pendingOK (inFlight w)
  /\ timerOK (debounceTimeout w).

End Vocabulary.

(** Whether the page lets the events happen one after the other. *)
Fixpoint feasible (LANGUAGES : list Language) (w : Runtime) (es : list Event) : bool :=
  match es with
  | [] => true
  | e :: rest => enabled LANGUAGES w e && feasible LANGUAGES (step LANGUAGES w e) rest
  end.

(** *** Concrete runs *)

(** A reachable state with a concrete source language: the user has
    typed a short text and chosen English. *)
Definition typedAndChosen : Runtime :=
  step exampleLanguages
    (step exampleLanguages (mount exampleLanguages) (ChangeInputText "Ciao"))
    (ChangeSourceLang "en").

(** The user has typed a French sentence and the debounce timeout has
    fired: a detection is in flight. *)
Definition detecting : Runtime :=
  runEvents exampleLanguages (mount exampleLanguages)
    [ChangeInputText "Bonjour, comment allez-vous?"; TimeoutFires].

(** The race of C1.  A French sentence is typed, the debounce timeout
    fires and the detection request goes out.  The user then shortens
    the text, which lowers the detecting flag and so enables the source
    selector again, and chooses German.  Only then does the endpoint
    answer "French". *)
Definition raceBeforeAnswer : list Event :=
  [ ChangeInputText "Bonjour, comment allez-vous?";
    TimeoutFires;
    ChangeInputText "Bonjour";
    ChangeSourceLang "de" ].

(** The violation of C2.  A short text is typed, and the user chooses as
    source language Italian, which is the initial target language. *)
Definition chooseTargetAsSource : list Event :=
  [ ChangeInputText "Ciao"; ChangeSourceLang "it" ].

(** Two interleavings for C5, both from the state where "Ciao" is typed
    and English chosen.  In the first an image is chosen while the
    generation is in flight and its file cannot be read; the generation
    then succeeds.  In the second, after the same failed reading has
    lowered the loading flag, a second generation is started and
    succeeds; only then does the first one fail. *)
Definition generateWhileImageFails : list Event :=
  [ ClickGenerate;
    SelectImage "image/png";
    ReaderFails 0;
    GatewaySettles 0 (ResponseText "Hello") ].

Definition generateTwice : list Event :=
  [ ClickGenerate;
    SelectImage "image/png";
    ReaderFails 0;
    ClickGenerate;
    GatewaySettles 1 (ResponseText "Hello");
    GatewaySettles 0 (EndpointError "offline") ].

(* ================================================================== *)
(** ** The output panel *)
(* ================================================================== *)

Module Output.

(** Whether [s] starts with [sep]. *)
Fixpoint startsWith (sep s : string) : bool :=
  match sep, s with
  | EmptyString, _ => true
  | String _ _, EmptyString => false
  | String a sep', String b s' => Ascii.eqb a b && startsWith sep' s'
  end.

(** The scan of [String.prototype.split] for a non-empty separator
    string: [skip] counts the characters of a separator occurrence still
    to pass over; the result is the piece being read and the pieces after
    it. *)
Fixpoint splitFrom (sep : string) (skip : nat) (s : string) : string * list string :=
  match s with
  | EmptyString => (EmptyString, [])
  | String c r =>
      match skip with
      | S k => splitFrom sep k r
      | O =>
          if startsWith sep s
          then let '(piece, pieces) := splitFrom sep (String.length sep - 1) r in
               (EmptyString, piece :: pieces)
          else let '(piece, pieces) := splitFrom sep 0 r in
               (String c piece, pieces)
      end
  end.

(** [s.split(sep)] for a non-empty [sep]. *)
Definition splitOn (sep s : string) : list string :=
  let '(piece, pieces) := splitFrom sep 0 s in piece :: pieces.

(** What [renderOutput] returns. *)
Inductive View : Type :=
| Spinner
| ErrorText (message : string)
| Placeholder
| KeywordChips (words : list string)
| Paragraph (text : string).

Definition renderOutput (s : Session) : View :=
  let result :=
    if negb (truthy (outputText s)) then Placeholder
    else if modeIs (mode s) AAC then KeywordChips (splitOn " - " (outputText s))
    else Paragraph (outputText s) in
  if isLoading s then Spinner
  else match error s with
       | Some message => if truthy message then ErrorText message else result
       | None => result
       end.

End Output.

Import Output.

(* ================================================================== *)
(** ** Vocabulary of the further properties *)
(* ================================================================== *)

(** [words.join(sep)]. *)
Fixpoint join (sep : string) (words : list string) : string :=
  match words with
  | [] => EmptyString
  | [word] => word
  | word :: rest => word ++ sep ++ join sep rest
  end.

(** [s] has an occurrence of [sep]. *)
Definition contains (sep s : string) : Prop := exists a b, s = a ++ sep ++ b.

(** The message each function of the service rejects with. *)
Definition failureMessage (call : GatewayCall) : string :=
  match call with
  | detectLanguageCall _ => "Failed to detect language."
  | extractTextFromImageCall _ _ => "Failed to extract text from image."
  | _ => "Failed to get response from AI model."
  end.

Definition isDetection (entry : GatewayCall * (Promise string -> Task)) : bool :=
  match fst entry with
  | detectLanguageCall _ => true
  | _ => false
  end.

(** A detection is on its way: its timeout is pending or its request is
    in flight. *)
Definition detectionPending (w : Runtime) : Prop :=
  debounceTimeout w <> None \/ existsb isDetection (inFlight w) = true.

(** A pending timeout belongs to the current state: the source language
    is on auto-detect, the trimmed input is longer than 10 characters,
    and the callback was created by a render that saw the current input
    text and target language. *)
Definition timerCurrent (LANGUAGES : list Language) (w : Runtime) : Prop :=
  match debounceTimeout w with
  | None => True
  | Some t =>
      sourceLang (session w) = DETECT_LANGUAGE_CODE
      /\ (10 < String.length (trim (inputText (session w))))%nat
      /\ isDetectingLang (session w) = true
      /\ exists r, t = detectionTimeout LANGUAGES r
                   /\ sourceLang r = DETECT_LANGUAGE_CODE
                   /\ inputText r = inputText (session w)
                   /\ targetLang r = targetLang (session w)
  end.

Definition detectionInvariant (LANGUAGES : list Language) (w : Runtime) : Prop :=
  timerCurrent LANGUAGES w
  /\ (isDetectingLang (session w) = true -> detectionPending w).

(** The events whose handlers write none of the input text, the source
    language and the target language. *)
Definition leavesLanguagesAlone (e : Event) : bool :=
  match e with
  | ChangeMode _ | ChangeEasyReadLevel _ | ClickGenerate | SelectImage _
  | OpenCamera | CloseCamera | CaptureFromCamera | ReaderLoads _ _ | ReaderFails _ => true
  | _ => false
  end.

(** *** Further concrete runs *)

(** The session after an AAC generation that answered three keywords. *)
Definition aacAnswered : Session :=
  setOutputText "I - want - water" (setMode AAC (session typedAndChosen)).

(** The user has typed a French sentence; the debounce timeout is
    pending. *)
Definition debouncing : Runtime :=
  step exampleLanguages (mount exampleLanguages)
       (ChangeInputText "Bonjour, comment allez-vous?").

(** The sentence typed is Italian, the initial target language. *)
Definition debouncingItalian : Runtime :=
  step exampleLanguages (mount exampleLanguages)
       (ChangeInputText "Buongiorno, come sta oggi?").

(* ================================================================== *)
(** ** Properties of the string functions *)
(* ================================================================== *)

Lemma lowerChar_whiteSpace (c : ascii) : isWhiteSpace (lowerChar c) = isWhiteSpace c.
Proof.
  destruct c as [[] [] [] [] [] [] [] []]; reflexivity.
Qed.

Lemma lowerChar_idempotent (c : ascii) : lowerChar (lowerChar c) = lowerChar c.
Proof.
  destruct c as [[] [] [] [] [] [] [] []]; reflexivity.
Qed.

Lemma toLowerCase_idempotent (s : string) : toLowerCase (toLowerCase s) = toLowerCase s.
Proof.
  induction s as [| c r IH]; simpl; [reflexivity |].
  now rewrite lowerChar_idempotent, IH.
Qed.

Lemma toLowerCase_trimStart (s : string) :
  toLowerCase (trimStart s) = trimStart (toLowerCase s).
Proof.
  induction s as [| c r IH]; simpl; [reflexivity |].
  rewrite lowerChar_whiteSpace.
  destruct (isWhiteSpace c); [exact IH | reflexivity].
Qed.

Lemma toLowerCase_trimEnd (s : string) :
  toLowerCase (trimEnd s) = trimEnd (toLowerCase s).
Proof.
  induction s as [| c r IH]; simpl; [reflexivity |].
  rewrite <- IH, lowerChar_whiteSpace.
  destruct (trimEnd r) as [| d r']; simpl.
  - destruct (isWhiteSpace c); reflexivity.
  - reflexivity.
Qed.

(** Trimming and lower-casing commute. *)
Lemma toLowerCase_trim (s : string) : toLowerCase (trim s) = trim (toLowerCase s).
Proof.
  unfold trim. now rewrite toLowerCase_trimEnd, toLowerCase_trimStart.
Qed.

Lemma isBlank_false_iff (text : string) : isBlank text = false <-> trim text <> EmptyString.
Proof.
  unfold isBlank, truthy. destruct (trim text); simpl; split; congruence.
Qed.

(* ================================================================== *)
(** ** The gateway: what [detectLanguage] returns *)
(* ================================================================== *)

Lemma nameMatches_true (langName : string) (lang : Language) :
  nameMatches langName lang = true <-> equalIgnoringCase (name lang) (trim langName).
Proof. unfold nameMatches, equalIgnoringCase. apply String.eqb_eq. Qed.

Lemma nameMatches_false (langName : string) (lang : Language) :
  nameMatches langName lang = false <-> ~ equalIgnoringCase (name lang) (trim langName).
Proof. unfold nameMatches, equalIgnoringCase. apply String.eqb_neq. Qed.

(** The predicate of [detectLanguage] does not see the letter case of the
    returned name, nor the white space around it. *)
Lemma nameMatches_ignores_case (a b : string) (lang : Language) :
  equalIgnoringCase a b -> nameMatches a lang = nameMatches b lang.
Proof.
  unfold nameMatches, equalIgnoringCase. intros H.
  now rewrite !toLowerCase_trim, H.
Qed.

Lemma trimEnd_cons (c : ascii) (t : string) :
  trimEnd (String c t) =
  match trimEnd t with
  | EmptyString => if isWhiteSpace c then EmptyString else String c EmptyString
  | r' => String c r'
  end.
Proof. reflexivity. Qed.

Lemma trim_trim (s : string) : trim (trim s) = trim s.
Proof.
  unfold trim.
  assert (Hend : forall t, trimEnd (trimEnd t) = trimEnd t).
  { induction t as [| c r IH]; [reflexivity |].
    rewrite trimEnd_cons.
    destruct (trimEnd r) as [| d r'] eqn:E.
    - destruct (isWhiteSpace c) eqn:W; [reflexivity |].
      rewrite trimEnd_cons. simpl. now rewrite W.
    - rewrite trimEnd_cons, IH. reflexivity. }
  assert (Hstart : forall t, trimStart (trimEnd (trimStart t)) = trimEnd (trimStart t)).
  { induction t as [| c r IH]; [reflexivity |].
    cbn [trimStart]. destruct (isWhiteSpace c) eqn:W; [exact IH |].
    rewrite trimEnd_cons. destruct (trimEnd r); [rewrite W |]; cbn [trimStart]; now rewrite W. }
  now rewrite Hstart, Hend.
Qed.

Lemma nameMatches_ignores_padding (a : string) (lang : Language) :
  nameMatches (trim a) lang = nameMatches a lang.
Proof. unfold nameMatches. now rewrite trim_trim. Qed.

Lemma find_first_match {A : Type} (f : A -> bool) (pre : list A) (x : A) (post : list A) :
  (forall y, In y pre -> f y = false) -> f x = true ->
  find f (pre ++ x :: post) = Some x.
Proof.
  induction pre as [| y pre IH]; simpl; intros Hpre Hx.
  - now rewrite Hx.
  - rewrite (Hpre y (or_introl eq_refl)). apply IH; auto.
Qed.

Lemma find_no_match {A : Type} (f : A -> bool) (l : list A) :
  (forall y, In y l -> f y = false) -> find f l = None.
Proof.
  induction l as [| y l IH]; simpl; intros H; [reflexivity |].
  rewrite (H y (or_introl eq_refl)). apply IH; auto.
Qed.

Lemma exec_detectLanguage (LANGUAGES : list Language) (endpoint : Request -> Response)
      (text : string) :
  exec endpoint (detectLanguage LANGUAGES text) =
  (match endpoint (detectRequest text) with
   | ResponseText langName =>
       match find (nameMatches langName) LANGUAGES with
       | Some foundLang => Resolved (code foundLang)
       | None => Rejected "Failed to detect language."
       end
   | EndpointError _ => Rejected "Failed to detect language."
   end, [detectRequest text]).
Proof.
  unfold detectLanguage, awaitText, detectRequest. simpl.
  destruct (endpoint _) as [langName | m]; simpl; [| reflexivity].
  destruct (find _ LANGUAGES); reflexivity.
Qed.

(** C3, as the code has it.  [detectLanguage] sends one request.  The
    returned name is trimmed and compared, letter case ignored, with the
    names of the catalog in order: the code of the first entry that
    matches is the result, as the catalog has it.  When no entry matches
    the promise is rejected with the message "Failed to detect
    language.", and a failure of the endpoint is rejected with that same
    message: the caller cannot tell the two apart. *)
Theorem detectLanguage_matches_catalog
        (LANGUAGES : list Language) (endpoint : Request -> Response) (text : string) :
  (forall langName pre lang post,
      endpoint (detectRequest text) = ResponseText langName ->
      LANGUAGES = (pre ++ lang :: post)%list ->
      (forall x, In x pre -> ~ equalIgnoringCase (name x) (trim langName)) ->
      equalIgnoringCase (name lang) (trim langName) ->
      exec endpoint (detectLanguage LANGUAGES text)
      = (Resolved (code lang), [detectRequest text]))
  /\ (forall langName,
      endpoint (detectRequest text) = ResponseText langName ->
      (forall x, In x LANGUAGES -> ~ equalIgnoringCase (name x) (trim langName)) ->
      exec endpoint (detectLanguage LANGUAGES text)
      = (Rejected "Failed to detect language.", [detectRequest text]))
  /\ (forall message,
      endpoint (detectRequest text) = EndpointError message ->
      exec endpoint (detectLanguage LANGUAGES text)
      = (Rejected "Failed to detect language.", [detectRequest text])).
Proof.
  repeat split.
  - intros langName pre lang post Hresp Hcat Hpre Hlang.
    rewrite exec_detectLanguage, Hresp, Hcat.
    rewrite find_first_match; [reflexivity | | now apply nameMatches_true].
    intros y Hy. apply nameMatches_false. auto.
  - intros langName Hresp Hnone.
    rewrite exec_detectLanguage, Hresp.
    rewrite find_no_match; [reflexivity |].
    intros y Hy. apply nameMatches_false. auto.
  - intros message Hresp. now rewrite exec_detectLanguage, Hresp.
Qed.

(** An upper-case, padded "FRENCH" resolves to [fr]; "Klingon" and a
    failed request are both rejected with the same message. *)
Lemma detectLanguage_matches_catalog_witness :
  exec (fun _ => ResponseText "  FRENCH ") (detectLanguage exampleLanguages "Bonjour")
  = (Resolved "fr", [detectRequest "Bonjour"])
  /\ exec (fun _ => ResponseText "Klingon") (detectLanguage exampleLanguages "nuqneH")
  = (Rejected "Failed to detect language.", [detectRequest "nuqneH"])
  /\ exec (fun _ => EndpointError "offline") (detectLanguage exampleLanguages "nuqneH")
  = (Rejected "Failed to detect language.", [detectRequest "nuqneH"]).
Proof.
  split; [| split].
  - apply (proj1 (detectLanguage_matches_catalog exampleLanguages
                    (fun _ => ResponseText "  FRENCH ") "Bonjour")
             "  FRENCH "
             [mkLanguage "en" "English"; mkLanguage "it" "Italian"]
             (mkLanguage "fr" "French")
             [mkLanguage "de" "German"; mkLanguage "es" "Spanish";
              mkLanguage "ja" "Japanese"]).
    + reflexivity.
    + reflexivity.
    + intros x [<- | [<- | []]]; vm_compute; discriminate.
    + reflexivity.
  - apply (proj1 (proj2 (detectLanguage_matches_catalog exampleLanguages
                    (fun _ => ResponseText "Klingon") "nuqneH")) "Klingon").
    + reflexivity.
    + intros x [<- | [<- | [<- | [<- | [<- | [<- | []]]]]]]; vm_compute; discriminate.
  - apply (proj2 (proj2 (detectLanguage_matches_catalog exampleLanguages
                    (fun _ => EndpointError "offline") "nuqneH")) "offline").
    reflexivity.
Defined.

(** C3 as stated fails: for a name that no catalog entry matches,
    [detectLanguage] is rejected exactly as it is when the request
    itself fails; there is no failure of its own for an unsupported
    language. *)
Lemma detectLanguage_unsupported_not_distinct :
  find (nameMatches "Klingon") exampleLanguages = None
  /\ fst (exec (fun _ => ResponseText "Klingon") (detectLanguage exampleLanguages "nuqneH"))
     = fst (exec (fun _ => EndpointError "offline") (detectLanguage exampleLanguages "nuqneH")).
Proof. split; reflexivity. Qed.

(* ================================================================== *)
(** ** The derived target-language list *)
(* ================================================================== *)

Section TargetList.

Variable LANGUAGES : list Language.

Lemma targetLanguages_In (sourceLang : string) (lang : Language) :
  In lang (targetLanguages LANGUAGES sourceLang)
  <-> In lang LANGUAGES /\ code lang <> sourceLang.
Proof.
  unfold targetLanguages. rewrite filter_In, negb_true_iff, String.eqb_neq. tauto.
Qed.

Lemma filter_absent_code (c : string) (langs : list Language) :
  ~ In c (map code langs) ->
  filter (fun lang => negb (code lang =? c)) langs = langs.
Proof.
  induction langs as [| lang rest IH]; simpl; intros Habs; [reflexivity |].
  destruct (String.eqb_spec (code lang) c) as [E | N]; simpl.
  - exfalso. apply Habs. now left.
  - f_equal. apply IH. intros Hin. apply Habs. now right.
Qed.

Lemma targetLanguages_catalogWithout (sourceLang : string) :
  NoDup (map code LANGUAGES) ->
  targetLanguages LANGUAGES sourceLang = catalogWithout sourceLang LANGUAGES.
Proof.
  unfold targetLanguages.
  induction LANGUAGES as [| lang rest IH]; simpl; intros Hnd; [reflexivity |].
  inversion Hnd as [| ? ? Hnotin Hrest]; subst.
  destruct (String.eqb_spec (code lang) sourceLang) as [E | N]; simpl.
  - subst sourceLang. now apply filter_absent_code.
  - f_equal. now apply IH.
Qed.

(** C8.  For a catalog whose codes are unique and do not include the
    sentinel [auto], and for every source language, [auto] included: the
    target list is the catalog with the entry of that code removed; it
    holds exactly the catalog entries whose code differs from the source
    language; and no entry of it has the code [auto]. *)
Theorem targetLanguages_excludes_source (sourceLang : string) :
  NoDup (map code LANGUAGES) ->
  (forall lang, In lang LANGUAGES -> code lang <> DETECT_LANGUAGE_CODE) ->
  targetLanguages LANGUAGES sourceLang = catalogWithout sourceLang LANGUAGES
  /\ (forall lang, In lang (targetLanguages LANGUAGES sourceLang)
                   <-> In lang LANGUAGES /\ code lang <> sourceLang)
  /\ (forall lang, In lang (targetLanguages LANGUAGES sourceLang) ->
                   code lang <> DETECT_LANGUAGE_CODE).
Proof.
  intros Hnd Hauto. split; [| split].
  - now apply targetLanguages_catalogWithout.
  - intros lang. apply targetLanguages_In.
  - intros lang Hin. apply targetLanguages_In in Hin. apply Hauto, Hin.
Qed.

End TargetList.

Lemma exampleLanguages_unique_codes : NoDup (map code exampleLanguages).
Proof.
  simpl. repeat constructor; simpl; intuition discriminate.
Qed.

Lemma exampleLanguages_no_sentinel (lang : Language) :
  In lang exampleLanguages -> code lang <> DETECT_LANGUAGE_CODE.
Proof.
  simpl. intros [<- | [<- | [<- | [<- | [<- | [<- | []]]]]]]; discriminate.
Qed.

(** With the source set to French the target list is the example catalog
    without its French entry; with the source on auto-detect it is the
    whole catalog. *)
Lemma targetLanguages_excludes_source_witness :
  targetLanguages exampleLanguages "fr"
  = [ mkLanguage "en" "English"; mkLanguage "it" "Italian"; mkLanguage "de" "German";
      mkLanguage "es" "Spanish"; mkLanguage "ja" "Japanese" ]
  /\ targetLanguages exampleLanguages DETECT_LANGUAGE_CODE = exampleLanguages.
Proof.
  split.
  - rewrite (proj1 (targetLanguages_excludes_source exampleLanguages "fr"
                      exampleLanguages_unique_codes exampleLanguages_no_sentinel)).
    reflexivity.
  - rewrite (proj1 (targetLanguages_excludes_source exampleLanguages DETECT_LANGUAGE_CODE
                      exampleLanguages_unique_codes exampleLanguages_no_sentinel)).
    reflexivity.
Defined.

(* ================================================================== *)
(** ** Renders and effects *)
(* ================================================================== *)

Section Effects.

Variable LANGUAGES : list Language.

Lemma sameDetectionDeps_refl (s : Session) : sameDetectionDeps s s = true.
Proof. unfold sameDetectionDeps. now rewrite !String.eqb_refl. Qed.

Lemma sameDetectionDeps_sameResetDeps (a b : Session) :
  sameDetectionDeps a b = true -> sameResetDeps a b = true.
Proof.
  unfold sameDetectionDeps, sameResetDeps. intros H.
  apply andb_true_iff in H. tauto.
Qed.

Lemma sameDetectionDeps_eq (a b : Session) :
  sameDetectionDeps a b = true
  <-> inputText a = inputText b /\ sourceLang a = sourceLang b /\ targetLang a = targetLang b.
Proof.
  unfold sameDetectionDeps. rewrite !andb_true_iff, !String.eqb_eq. tauto.
Qed.

Lemma sameResetDeps_eq (a b : Session) :
  sameResetDeps a b = true <-> inputText a = inputText b /\ sourceLang a = sourceLang b.
Proof.
  unfold sameResetDeps. rewrite !andb_true_iff, !String.eqb_eq. tauto.
Qed.

(** A render whose dependencies did not change runs no effect. *)
Lemma runEffects_same_deps (prev : Session) (w : Runtime) :
  sameDetectionDeps prev (session w) = true -> runEffects LANGUAGES prev w = w.
Proof.
  intros H. unfold runEffects.
  now rewrite H, (sameDetectionDeps_sameResetDeps _ _ H).
Qed.

Lemma commit_same_deps (n : nat) (prev : Session) (w : Runtime) :
  sameDetectionDeps prev (session w) = true -> commit LANGUAGES n prev w = w.
Proof.
  intros H. destruct n as [| n]; [reflexivity |].
  simpl. rewrite (runEffects_same_deps _ _ H).
  now rewrite sameDetectionDeps_refl.
Qed.

Lemma sameButDetection_refl (a : Session) : sameButDetection a a.
Proof. unfold sameButDetection. tauto. Qed.

Lemma sameButDetection_trans (a b c : Session) :
  sameButDetection a b -> sameButDetection b c -> sameButDetection a c.
Proof.
  unfold sameButDetection. intros H1 H2.
  repeat match goal with H : _ /\ _ |- _ => destruct H end.
  repeat split; congruence.
Qed.

Lemma runEffects_frame (prev : Session) (w : Runtime) :
  sameButDetection (session (runEffects LANGUAGES prev w)) (session w)
  /\ inFlight (runEffects LANGUAGES prev w) = inFlight w.
Proof.
  unfold runEffects, detectionEffect, resetEffect, withSession, withDebounceTimeout,
    sameButDetection.
  destruct (sameDetectionDeps prev (session w)), (sameResetDeps prev (session w)),
    ((sourceLang (session w) =? DETECT_LANGUAGE_CODE)
     && (10 <? String.length (trim (inputText (session w))))%nat),
    (isBlank (inputText (session w)) && negb (sourceLang (session w) =? DETECT_LANGUAGE_CODE));
    simpl; tauto.
Qed.

Lemma commit_frame (n : nat) (prev : Session) (w : Runtime) :
  sameButDetection (session (commit LANGUAGES n prev w)) (session w)
  /\ inFlight (commit LANGUAGES n prev w) = inFlight w.
Proof.
  revert prev w. induction n as [| n IH]; intros prev w; simpl.
  - split; [apply sameButDetection_refl | reflexivity].
  - destruct (runEffects_frame prev w) as [Hs Hf].
    destruct (sameDetectionDeps _ _); [tauto |].
    destruct (IH (session w) (runEffects LANGUAGES prev w)) as [Hs' Hf'].
    split; [eapply sameButDetection_trans; eassumption | congruence].
Qed.

(** The source language after the effects of one render. *)
Lemma runEffects_sourceLang (prev : Session) (w : Runtime) :
  sourceLang (session (runEffects LANGUAGES prev w)) =
  if negb (sameResetDeps prev (session w)) && isBlank (inputText (session w))
     && negb (sourceLang (session w) =? DETECT_LANGUAGE_CODE)
  then DETECT_LANGUAGE_CODE else sourceLang (session w).
Proof.
  unfold runEffects, detectionEffect, resetEffect, withSession, withDebounceTimeout.
  destruct (sameDetectionDeps prev (session w)), (sameResetDeps prev (session w)),
    ((sourceLang (session w) =? DETECT_LANGUAGE_CODE)
     && (10 <? String.length (trim (inputText (session w))))%nat),
    (isBlank (inputText (session w))),
    (sourceLang (session w) =? DETECT_LANGUAGE_CODE);
    reflexivity.
Qed.

Lemma commit_sourceLang_cases (n : nat) (prev : Session) (w : Runtime) :
  sourceLang (session (commit LANGUAGES n prev w)) = sourceLang (session w)
  \/ (sourceLang (session (commit LANGUAGES n prev w)) = DETECT_LANGUAGE_CODE
      /\ isBlank (inputText (session w)) = true).
Proof.
  revert prev w. induction n as [| n IH]; intros prev w; simpl; [now left |].
  pose proof (runEffects_sourceLang prev w) as Hsrc.
  destruct (runEffects_frame prev w) as [Hfr _].
  destruct (sameDetectionDeps _ _).
  - rewrite Hsrc.
    destruct (negb _ && isBlank (inputText (session w)) && _) eqn:E; [| now left].
    right. split; [reflexivity |].
    apply andb_true_iff in E. destruct E as [E _].
    apply andb_true_iff in E. tauto.
  - destruct (IH (session w) (runEffects LANGUAGES prev w)) as [H | [H Hb]].
    + rewrite H, Hsrc.
      destruct (negb _ && isBlank (inputText (session w)) && _) eqn:E; [| now left].
      right. split; [reflexivity |].
      apply andb_true_iff in E. destruct E as [E _].
      apply andb_true_iff in E. tauto.
    + right. split; [exact H |].
      destruct Hfr as (_ & Hin & _). now rewrite <- Hin.
Qed.

(** With a non-blank input no effect touches the source language. *)
Lemma commit_sourceLang_nonblank (n : nat) (prev : Session) (w : Runtime) :
  isBlank (inputText (session w)) = false ->
  sourceLang (session (commit LANGUAGES n prev w)) = sourceLang (session w).
Proof.
  intros Hnb. destruct (commit_sourceLang_cases n prev w) as [H | [_ H]]; congruence.
Qed.

(** Two rounds of renders are all [commit] ever needs: the only effect
    that changes a dependency is the reset to auto-detect, and a second
    render then finds nothing left to change. *)
Lemma commit_fuel (n : nat) (prev : Session) (w : Runtime) :
  commit LANGUAGES (2 + n) prev w = commit LANGUAGES 2 prev w.
Proof.
  cbn [Nat.add commit].
  set (w' := runEffects LANGUAGES prev w).
  destruct (sameDetectionDeps (session w) (session w')) eqn:D; [reflexivity |].
  set (w'' := runEffects LANGUAGES (session w) w').
  assert (Hsame : sameDetectionDeps (session w') (session w'') = true).
  { destruct (runEffects_frame prev w) as [(_ & Hin & _ & Htg & _) _].
    destruct (runEffects_frame (session w) w') as [(_ & Hin' & _ & Htg' & _) _].
    fold w' in Hin, Htg. fold w'' in Hin', Htg'.
    pose proof (runEffects_sourceLang prev w) as Hsrc. fold w' in Hsrc.
    pose proof (runEffects_sourceLang (session w) w') as Hsrc'. fold w'' in Hsrc'.
    apply sameDetectionDeps_eq. repeat split; try congruence.
    rewrite Hsrc'.
    destruct (negb (sameResetDeps prev (session w)) && isBlank (inputText (session w))
              && negb (sourceLang (session w) =? DETECT_LANGUAGE_CODE)) eqn:E.
    - rewrite Hsrc. cbn. now rewrite andb_false_r.
    - exfalso.
      assert (sameDetectionDeps (session w) (session w') = true); [| congruence].
      apply sameDetectionDeps_eq. repeat split; congruence. }
  rewrite Hsame. reflexivity.
Qed.

(** *** What every reachable state satisfies *)

Lemma runEffects_stable (prev : Session) (w : Runtime) :
  (sameResetDeps prev (session w) = true -> stable (session w)) ->
  stable (session (runEffects LANGUAGES prev w)).
Proof.
  intros H. unfold stable.
  destruct (runEffects_frame prev w) as [(_ & Hin & _) _].
  rewrite Hin, runEffects_sourceLang.
  destruct (sameResetDeps prev (session w)); cbn.
  - now apply H.
  - destruct (isBlank (inputText (session w))); cbn; [| reflexivity].
    destruct (sourceLang (session w) =? DETECT_LANGUAGE_CODE) eqn:E; cbn; [| congruence].
    apply String.eqb_eq in E. congruence.
Qed.

Lemma commit_keeps_stable (n : nat) (prev : Session) (w : Runtime) :
  stable (session w) -> stable (session (commit LANGUAGES n prev w)).
Proof.
  revert prev w. induction n as [| n IH]; intros prev w Hst; cbn [commit]; [exact Hst |].
  assert (stable (session (runEffects LANGUAGES prev w))) by (apply runEffects_stable; auto).
  destruct (sameDetectionDeps _ _); [assumption | now apply IH].
Qed.

Lemma commit_stable (n : nat) (prev : Session) (w : Runtime) :
  stable prev -> stable (session (commit LANGUAGES (S n) prev w)).
Proof.
  intros Hprev. cbn [commit].
  assert (stable (session (runEffects LANGUAGES prev w))).
  { apply runEffects_stable. intros Hd. apply sameResetDeps_eq in Hd.
    unfold stable in *. destruct Hd as [<- <-]. exact Hprev. }
  destruct (sameDetectionDeps _ _); [assumption | now apply commit_keeps_stable].
Qed.

Lemma runEffects_timerOK (prev : Session) (w : Runtime) :
  timerOK LANGUAGES (debounceTimeout w) ->
  timerOK LANGUAGES (debounceTimeout (runEffects LANGUAGES prev w)).
Proof.
  intros H. unfold runEffects, detectionEffect, resetEffect, withSession, withDebounceTimeout.
  destruct (sameDetectionDeps prev (session w)), (sameResetDeps prev (session w)),
    (sourceLang (session w) =? DETECT_LANGUAGE_CODE) eqn:E,
    (10 <? String.length (trim (inputText (session w))))%nat,
    (isBlank (inputText (session w)));
    cbn; trivial;
    exists (session w); (split; [now apply String.eqb_eq | reflexivity]).
Qed.

Lemma commit_timerOK (n : nat) (prev : Session) (w : Runtime) :
  timerOK LANGUAGES (debounceTimeout w) ->
  timerOK LANGUAGES (debounceTimeout (commit LANGUAGES n prev w)).
Proof.
  revert prev w. induction n as [| n IH]; intros prev w H; cbn [commit]; [exact H |].
  pose proof (runEffects_timerOK prev w H).
  destruct (sameDetectionDeps _ _); [assumption | now apply IH].
Qed.

End Effects.

(* ================================================================== *)
(** ** Reachable states *)
(* ================================================================== *)

Section ReachableStates.

Variable LANGUAGES : list Language.

(** The sentinel is not a catalog entry: it is added to the options of
    the source selector only. *)
Hypothesis catalog_without_sentinel :
  forall lang, In lang LANGUAGES -> code lang <> DETECT_LANGUAGE_CODE.

Lemma newTarget_In (detectedLangCode : string) (lang : Language) :
  newTarget LANGUAGES detectedLangCode = Some lang -> In lang LANGUAGES.
Proof.
  unfold newTarget.
  destruct (find _ LANGUAGES) as [l |] eqn:E1.
  - intros [= <-]. now apply find_some in E1.
  - intros E2. now apply find_some in E2.
Qed.

Lemma hasCode_target (c sourceLang : string) :
  hasCode c (targetLanguages LANGUAGES sourceLang) = true -> c <> DETECT_LANGUAGE_CODE.
Proof.
  unfold hasCode. intros H. apply existsb_exists in H.
  destruct H as (lang & Hin & Hc). apply String.eqb_eq in Hc. subst c.
  apply targetLanguages_In in Hin. apply catalog_without_sentinel, Hin.
Qed.

Lemma pendingOK_generate (r : Session) :
  pendingOK LANGUAGES (generateCall LANGUAGES r, generateContinuation).
Proof. unfold pendingOK, generateCall. destruct (mode r); reflexivity. Qed.

Lemma Forall_removeAt {A : Type} (P : A -> Prop) (i : nat) (l : list A) :
  Forall P l -> Forall P (removeAt i l).
Proof.
  intros H. revert i. induction H as [| x l Hx Hl IH]; intros [| i]; simpl; auto.
Qed.

(** What the detection callback does to the state once its call has
    settled. *)
Lemma start_detectionContinuation (r : Session) (p : Promise string) (w : Runtime) :
  sourceLang r = DETECT_LANGUAGE_CODE ->
  let w' := start (detectionContinuation LANGUAGES r p) w in
  inFlight w' = inFlight w
  /\ debounceTimeout w' = debounceTimeout w
  /\ sourceLang (session w') = match p with Resolved d => d | Rejected _ => "en" end
  /\ (targetLang (session w') = targetLang (session w)
      \/ exists lang, In lang LANGUAGES /\ targetLang (session w') = code lang)
  /\ error (session w') = error (session w)
  /\ isDetectingLang (session w') = false
  /\ mode (session w') = mode (session w)
  /\ inputText (session w') = inputText (session w).
Proof.
  intros Hr. unfold detectionContinuation. rewrite Hr. cbn.
  destruct p as [d | m]; cbn.
  - destruct (targetLang r =? d); cbn.
    + destruct (newTarget LANGUAGES d) as [lang |] eqn:E; cbn;
        repeat split; auto.
      right. exists lang. split; [now apply newTarget_In in E | reflexivity].
    + repeat split; auto.
  - repeat split; auto.
Qed.

(** What [handleGenerate] does to the state once its call has settled. *)
Lemma start_generateContinuation (p : Promise string) (w : Runtime) :
  let w' := start (generateContinuation p) w in
  inFlight w' = inFlight w
  /\ debounceTimeout w' = debounceTimeout w
  /\ sameDetectionDeps (session w) (session w') = true
  /\ mode (session w') = mode (session w).
Proof.
  destruct p; cbn; repeat split;
    unfold sameDetectionDeps; cbn; now rewrite !String.eqb_refl.
Qed.

Lemma start_imageContinuation (p : Promise string) (w : Runtime) :
  let w' := start (imageContinuation p) w in
  inFlight w' = inFlight w
  /\ debounceTimeout w' = debounceTimeout w
  /\ targetLang (session w') = targetLang (session w).
Proof. destruct p; cbn; auto. Qed.

Lemma handlerKeeps_same (w w' : Runtime) :
  handlerKeeps LANGUAGES w ->
  targetLang (session w') = targetLang (session w) ->
  inFlight w' = inFlight w ->
  debounceTimeout w' = debounceTimeout w ->
  handlerKeeps LANGUAGES w'.
Proof.
  unfold handlerKeeps. intros (Htg & Hpend & Htim) -> -> ->. auto.
Qed.

Lemma settled_generation (p : Promise string) (w : Runtime) :
  handlerKeeps LANGUAGES w -> handlerKeeps LANGUAGES (start (generateContinuation p) w).
Proof.
  intros Hw.
  destruct (start_generateContinuation p w) as (Hf & Ht & Hd & _).
  apply sameDetectionDeps_eq in Hd. destruct Hd as (_ & _ & Hd).
  now apply (handlerKeeps_same w).
Qed.

Lemma handle_invariant (w : Runtime) (e : Event) :
  invariant LANGUAGES w -> enabled LANGUAGES w e = true ->
  handlerKeeps LANGUAGES (handle LANGUAGES e w).
Proof.
  intros (Htg & Hst & Hpend & Htim) Hen.
  assert (Hw : handlerKeeps LANGUAGES w) by (unfold handlerKeeps; auto).
  destruct e as [m | text | c | c | n | | | fileType | | | | i result | i | | i resp];
    cbn [handle];
    try (apply (handlerKeeps_same w); [exact Hw | reflexivity ..]).
  - (* target selector *)
    cbn in Hen. apply andb_true_iff in Hen. destruct Hen as [_ Hc].
    unfold handlerKeeps. cbn. repeat split; auto.
    eapply hasCode_target; eassumption.
  - (* swap *)
    unfold handleSwapLanguages.
    destruct (modeIs (mode (session w)) NORMAL); cbn; [| exact Hw].
    destruct (sourceLang (session w) =? DETECT_LANGUAGE_CODE) eqn:E; cbn; [exact Hw |].
    apply String.eqb_neq in E. unfold handlerKeeps. cbn. auto.
  - (* generate *)
    unfold handleGenerate.
    destruct (isBlank (inputText (session w)) || _); cbn; [exact Hw |].
    unfold handlerKeeps. cbn. repeat split; auto.
    apply Forall_app. split; [assumption |].
    constructor; [apply pendingOK_generate | constructor].
  - (* a file has been read *)
    destruct (nth_error (fileReaders w) i) as [fileType |]; [| exact Hw].
    unfold handlerKeeps. cbn. repeat split; auto.
    apply Forall_app. split; [assumption |].
    constructor; [reflexivity | constructor].
  - (* a file could not be read *)
    destruct (nth_error (fileReaders w) i); [| exact Hw].
    apply (handlerKeeps_same w); [exact Hw | reflexivity ..].
  - (* the timeout fires *)
    cbn in Hen. destruct (debounceTimeout w) as [t |]; [| discriminate].
    destruct Htim as (r & Hr & ->).
    unfold handlerKeeps. cbn. repeat split; auto.
    apply Forall_app. split; [assumption |].
    constructor; [| constructor].
    unfold pendingOK. cbn. exists r. auto.
  - (* a call settles *)
    destruct (nth_error (inFlight w) i) as [[call k] |] eqn:E; [| exact Hw].
    assert (Hk : pendingOK LANGUAGES (call, k)).
    { rewrite Forall_forall in Hpend. apply Hpend. eapply nth_error_In; eassumption. }
    set (w0 := withInFlight (removeAt i (inFlight w)) w).
    assert (H0 : handlerKeeps LANGUAGES w0).
    { unfold handlerKeeps. cbn. repeat split; auto. now apply Forall_removeAt. }
    unfold pendingOK in Hk. cbn in Hk.
    destruct call as [text | base64 fileType | text src tgt | text lang level | text lang].
    + destruct Hk as (r & Hr & _ & ->).
      destruct (start_detectionContinuation r
                  (settle LANGUAGES (detectLanguageCall text) resp) w0 Hr)
        as (Hf & Ht & _ & Htarget & _).
      destruct H0 as (Htg0 & Hpend0 & Htim0).
      unfold handlerKeeps. rewrite Hf, Ht. repeat split; auto.
      destruct Htarget as [-> | (lang & Hin & ->)]; auto.
    + subst k.
      destruct (start_imageContinuation
                  (settle LANGUAGES (extractTextFromImageCall base64 fileType) resp) w0)
        as (Hf & Ht & Htarget).
      now apply (handlerKeeps_same w0).
    + subst k. now apply settled_generation.
    + subst k. now apply settled_generation.
    + subst k. now apply settled_generation.
Qed.

Lemma step_invariant (w : Runtime) (e : Event) :
  invariant LANGUAGES w -> enabled LANGUAGES w e = true -> invariant LANGUAGES (step LANGUAGES w e).
Proof.
  intros Hinv Hen.
  destruct (handle_invariant w e Hinv Hen) as (Htg & Hpend & Htim).
  destruct Hinv as (_ & Hst & _).
  unfold step, invariant.
  destruct (commit_frame LANGUAGES 2 (session w) (handle LANGUAGES e w))
    as [(_ & _ & _ & Htarget & _) Hfl].
  rewrite Htarget, Hfl.
  repeat split; auto.
  - now apply commit_stable.
  - now apply commit_timerOK.
Qed.

Lemma mount_invariant : invariant LANGUAGES (mount LANGUAGES).
Proof.
  unfold invariant. cbn. split; [discriminate |]. split; [| split].
  - intros H. now elim H.
  - constructor.
  - exact I.
Qed.

(** Every reachable state satisfies the invariant. *)
Lemma reachable_invariant (w : Runtime) : reachable LANGUAGES w -> invariant LANGUAGES w.
Proof.
  induction 1 as [| w e _ IH Hen]; [apply mount_invariant | now apply step_invariant].
Qed.

End ReachableStates.

(* ================================================================== *)
(** ** Swapping the languages *)
(* ================================================================== *)

Section Swap.

Variable LANGUAGES : list Language.

Hypothesis catalog_without_sentinel :
  forall lang, In lang LANGUAGES -> code lang <> DETECT_LANGUAGE_CODE.

Lemma modeIs_true (m1 m2 : TranslationMode) : modeIs m1 m2 = true <-> m1 = m2.
Proof. destruct m1, m2; cbn; split; congruence. Qed.

(** One click on the swap button, from a state where the swap applies
    and the input is not blank. *)
Lemma step_swap (w : Runtime) :
  mode (session w) = NORMAL ->
  sourceLang (session w) <> DETECT_LANGUAGE_CODE ->
  isBlank (inputText (session w)) = false ->
  let w' := step LANGUAGES w ClickSwap in
  sourceLang (session w') = targetLang (session w)
  /\ targetLang (session w') = sourceLang (session w)
  /\ mode (session w') = NORMAL
  /\ inputText (session w') = inputText (session w).
Proof.
  intros Hm Hs Hb. cbv zeta. unfold step.
  assert (Hh : handle LANGUAGES ClickSwap w =
               withSession (setTargetLang (sourceLang (session w))
                              (setSourceLang (targetLang (session w)) (session w))) w).
  { cbn. unfold handleSwapLanguages. rewrite Hm.
    apply String.eqb_neq in Hs. rewrite Hs. reflexivity. }
  rewrite Hh.
  set (w0 := withSession _ w).
  destruct (commit_frame LANGUAGES 2 (session w) w0)
    as [(Hmode & Hin & _ & Htg & _) _].
  rewrite (commit_sourceLang_nonblank LANGUAGES 2 (session w) w0 Hb).
  rewrite Htg, Hmode, Hin. cbn. auto.
Qed.

(** C7.  From every reachable state in Normal mode with a concrete
    source language, one swap exchanges the source and target languages
    exactly, and a second swap restores both. *)
Theorem swapLanguages_involution (w : Runtime) :
  reachable LANGUAGES w ->
  mode (session w) = NORMAL ->
  sourceLang (session w) <> DETECT_LANGUAGE_CODE ->
  let w1 := step LANGUAGES w ClickSwap in
  let w2 := step LANGUAGES w1 ClickSwap in
  sourceLang (session w1) = targetLang (session w)
  /\ targetLang (session w1) = sourceLang (session w)
  /\ sourceLang (session w2) = sourceLang (session w)
  /\ targetLang (session w2) = targetLang (session w).
Proof.
  intros Hreach Hm Hs. cbv zeta.
  destruct (reachable_invariant LANGUAGES catalog_without_sentinel w Hreach)
    as (Htg & Hst & _).
  pose proof (Hst Hs) as Hb.
  destruct (step_swap w Hm Hs Hb) as (Hs1 & Ht1 & Hm1 & Hi1).
  assert (Hs' : sourceLang (session (step LANGUAGES w ClickSwap)) <> DETECT_LANGUAGE_CODE)
    by congruence.
  assert (Hb' : isBlank (inputText (session (step LANGUAGES w ClickSwap))) = false)
    by congruence.
  destruct (step_swap (step LANGUAGES w ClickSwap) Hm1 Hs' Hb') as (Hs2 & Ht2 & _).
  repeat split; congruence.
Qed.

(** C10.  When the mode is not Normal or the source language is on
    auto-detect, [handleSwapLanguages] has nothing to do and a click on
    the swap button leaves the whole state as it was: every field of the
    session, the pending timeout and the calls in flight. *)
Theorem swapLanguages_noop (w : Runtime) :
  mode (session w) <> NORMAL \/ sourceLang (session w) = DETECT_LANGUAGE_CODE ->
  handleSwapLanguages (session w) = Done
  /\ step LANGUAGES w ClickSwap = w.
Proof.
  intros H.
  assert (Hd : handleSwapLanguages (session w) = Done).
  { unfold handleSwapLanguages. destruct H as [H | H].
    - destruct (modeIs (mode (session w)) NORMAL) eqn:E; [| reflexivity].
      apply modeIs_true in E. contradiction.
    - rewrite H. cbn. now rewrite andb_false_r. }
  split; [exact Hd |].
  unfold step. cbn [handle]. rewrite Hd. cbn [start].
  apply commit_same_deps, sameDetectionDeps_refl.
Qed.

End Swap.

Lemma typedAndChosen_reachable : reachable exampleLanguages typedAndChosen.
Proof.
  unfold typedAndChosen.
  apply reachable_step; [apply reachable_step; [apply reachable_mount |] |]; reflexivity.
Qed.

(** From English to Italian: a swap gives Italian to English, a second
    swap English to Italian again. *)
Lemma swapLanguages_involution_witness :
  (sourceLang (session typedAndChosen) = "en"
   /\ targetLang (session typedAndChosen) = "it")
  /\ sourceLang (session (step exampleLanguages typedAndChosen ClickSwap)) = "it"
  /\ targetLang (session (step exampleLanguages typedAndChosen ClickSwap)) = "en"
  /\ sourceLang (session (step exampleLanguages
                            (step exampleLanguages typedAndChosen ClickSwap) ClickSwap)) = "en"
  /\ targetLang (session (step exampleLanguages
                            (step exampleLanguages typedAndChosen ClickSwap) ClickSwap)) = "it".
Proof.
  split; [split; reflexivity |].
  apply (swapLanguages_involution exampleLanguages exampleLanguages_no_sentinel
           typedAndChosen typedAndChosen_reachable).
  - reflexivity.
  - discriminate.
Defined.

(** On a freshly mounted page the source language is on auto-detect and
    a swap changes nothing; neither does it in AAC mode. *)
Lemma swapLanguages_noop_witness :
  sourceLang (session (mount exampleLanguages)) = DETECT_LANGUAGE_CODE
  /\ step exampleLanguages (mount exampleLanguages) ClickSwap = mount exampleLanguages
  /\ mode (session (step exampleLanguages typedAndChosen (ChangeMode AAC))) <> NORMAL
  /\ step exampleLanguages (step exampleLanguages typedAndChosen (ChangeMode AAC)) ClickSwap
     = step exampleLanguages typedAndChosen (ChangeMode AAC).
Proof.
  split; [reflexivity |]. split; [| split; [vm_compute; discriminate |]].
  - apply (swapLanguages_noop exampleLanguages (mount exampleLanguages)).
    right. reflexivity.
  - apply (swapLanguages_noop exampleLanguages
             (step exampleLanguages typedAndChosen (ChangeMode AAC))).
    left. vm_compute. discriminate.
Defined.

(* ================================================================== *)
(** ** Generating *)
(* ================================================================== *)

Section Generate.

Variable LANGUAGES : list Language.

(** The name sent for a code is the catalog's, when the catalog has the
    code with a non-empty name, and the code itself otherwise. *)
Lemma langName_found (c : string) (pre : list Language) (lang : Language)
      (post : list Language) :
  LANGUAGES = (pre ++ lang :: post)%list ->
  (forall x, In x pre -> code x <> c) -> code lang = c -> name lang <> EmptyString ->
  langName LANGUAGES c = name lang.
Proof.
  intros -> Hpre Hc Hn. unfold langName.
  rewrite find_first_match.
  - destruct (name lang); [congruence | reflexivity].
  - intros y Hy. apply String.eqb_neq. auto.
  - now apply String.eqb_eq.
Qed.

Lemma langName_missing (c : string) :
  (forall x, In x LANGUAGES -> code x <> c) -> langName LANGUAGES c = c.
Proof.
  intros H. unfold langName. rewrite find_no_match; [reflexivity |].
  intros y Hy. apply String.eqb_neq. auto.
Qed.

Lemma handleGenerate_guarded (s : Session) :
  isBlank (inputText s) = false -> sourceLang s <> DETECT_LANGUAGE_CODE ->
  handleGenerate LANGUAGES s =
  Update (setIsLoading true)
    (Update (setError None)
       (Update (setOutputText EmptyString)
          (AwaitGateway (generateCall LANGUAGES s) generateContinuation))).
Proof.
  intros Hb Hs. unfold handleGenerate. rewrite Hb.
  apply String.eqb_neq in Hs. now rewrite Hs.
Qed.

(** Each of the three generating functions of the service sends exactly
    one request and hands back the text of the response, or the one
    message of [generateContent] when the request fails. *)
Lemma exec_generateContent (endpoint : Request -> Response) (prompt : string) :
  exec endpoint (generateContent prompt) =
  (match endpoint (mkRequest geminiFlash (Prompt prompt)) with
   | ResponseText text => Resolved text
   | EndpointError _ => Rejected "Failed to get response from AI model."
   end, [mkRequest geminiFlash (Prompt prompt)]).
Proof.
  unfold generateContent, awaitText. cbn.
  destruct (endpoint _); reflexivity.
Qed.

Lemma exec_generateCall (endpoint : Request -> Response) (s : Session) :
  exists prompt,
    exec endpoint (perform LANGUAGES (generateCall LANGUAGES s)) =
    (match endpoint (mkRequest geminiFlash (Prompt prompt)) with
     | ResponseText text => Resolved text
     | EndpointError _ => Rejected "Failed to get response from AI model."
     end, [mkRequest geminiFlash (Prompt prompt)]).
Proof.
  unfold generateCall.
  destruct (mode s); cbn [perform];
    unfold translateText, simplifyText, generateAAC; cbv zeta;
    eexists; apply exec_generateContent.
Qed.

(** C4.  When the input is not blank and the source language is
    concrete, one run of [handleGenerate] makes exactly one call on the
    service, chosen by the mode: [translateText] with the input and the
    names of the source and target languages in Normal mode,
    [simplifyText] with the input, the name of the source language and
    the level in Easy-to-Read mode, [generateAAC] with the input and the
    name of the source language in AAC mode.  That call sends exactly one
    request to the endpoint. *)
Theorem generate_dispatch (gateway : GatewayCall -> Promise string) (s : Session) :
  isBlank (inputText s) = false ->
  sourceLang s <> DETECT_LANGUAGE_CODE ->
  let calls := snd (run gateway (handleGenerate LANGUAGES s) s) in
  (mode s = NORMAL ->
   calls = [translateTextCall (inputText s) (langName LANGUAGES (sourceLang s))
                              (langName LANGUAGES (targetLang s))])
  /\ (mode s = EASY_READ ->
      calls = [simplifyTextCall (inputText s) (langName LANGUAGES (sourceLang s))
                                (easyReadLevel s)])
  /\ (mode s = AAC ->
      calls = [generateAACCall (inputText s) (langName LANGUAGES (sourceLang s))])
  /\ (forall call endpoint,
         In call calls ->
         List.length (snd (exec endpoint (perform LANGUAGES call))) = 1%nat).
Proof.
  intros Hb Hs. cbv zeta.
  rewrite (handleGenerate_guarded s Hb Hs).
  cbn [run].
  assert (Hcalls : forall s0,
             snd (let '(s', calls) :=
                    run gateway (generateContinuation (gateway (generateCall LANGUAGES s))) s0
                  in (s', generateCall LANGUAGES s :: calls))
             = [generateCall LANGUAGES s]).
  { intros s0. destruct (gateway (generateCall LANGUAGES s)); reflexivity. }
  rewrite Hcalls.
  repeat split.
  - intros Hm. unfold generateCall. now rewrite Hm.
  - intros Hm. unfold generateCall. now rewrite Hm.
  - intros Hm. unfold generateCall. now rewrite Hm.
  - intros call endpoint [<- | []].
    destruct (exec_generateCall endpoint s) as (prompt & ->). reflexivity.
Qed.

(** A run of [handleGenerate] whose call settles at once.  When the
    input is not blank and the source language is concrete: if the call
    is rejected, the run ends with the loading flag down, an empty output
    and the message of the rejection as error; if it resolves, the run
    ends with the loading flag down, no error and the result as
    output. *)
Theorem generate_outcome (gateway : GatewayCall -> Promise string) (s : Session) :
  isBlank (inputText s) = false ->
  sourceLang s <> DETECT_LANGUAGE_CODE ->
  let s' := fst (run gateway (handleGenerate LANGUAGES s) s) in
  (forall message,
      gateway (generateCall LANGUAGES s) = Rejected message ->
      isLoading s' = false /\ outputText s' = EmptyString
      /\ error s' = Some message /\ error s' <> None)
  /\ (forall result,
      gateway (generateCall LANGUAGES s) = Resolved result ->
      isLoading s' = false /\ error s' = None /\ outputText s' = result).
Proof.
  intros Hb Hs. cbv zeta.
  rewrite (handleGenerate_guarded s Hb Hs). cbn [run].
  split.
  - intros message Hg. rewrite Hg. cbn. repeat split. discriminate.
  - intros result Hg. rewrite Hg. cbn. repeat split.
Qed.

(** C6.  When the input trims to the empty string or the source language
    is on auto-detect, [handleGenerate] returns at once: a click on the
    button leaves the whole state as it was, with no call added to those
    in flight, and a run of the handler makes no call and returns the
    session unchanged, its error included. *)
Theorem generate_noop (gateway : GatewayCall -> Promise string) (w : Runtime) :
  trim (inputText (session w)) = EmptyString
  \/ sourceLang (session w) = DETECT_LANGUAGE_CODE ->
  step LANGUAGES w ClickGenerate = w
  /\ run gateway (handleGenerate LANGUAGES (session w)) (session w) = (session w, []).
Proof.
  intros H.
  assert (Hd : handleGenerate LANGUAGES (session w) = Done).
  { unfold handleGenerate, isBlank. destruct H as [H | H]; rewrite H; cbn.
    - reflexivity.
    - now rewrite orb_true_r. }
  split.
  - unfold step. cbn [handle]. rewrite Hd. cbn [start].
    apply commit_same_deps, sameDetectionDeps_refl.
  - now rewrite Hd.
Qed.

(** In the event loop, a click on the button followed by the answer of
    the endpoint to the call it made ends in the state that [run]
    computes. *)
Lemma generate_in_event_loop (w : Runtime) (resp : Response) :
  isBlank (inputText (session w)) = false ->
  sourceLang (session w) <> DETECT_LANGUAGE_CODE ->
  let clicked := step LANGUAGES w ClickGenerate in
  inFlight clicked
  = (inFlight w ++ [(generateCall LANGUAGES (session w), generateContinuation)])%list
  /\ session (step LANGUAGES clicked (GatewaySettles (List.length (inFlight w)) resp))
     = fst (run (fun call => settle LANGUAGES call resp)
                (handleGenerate LANGUAGES (session w)) (session w)).
Proof.
  intros Hb Hs. cbv zeta.
  assert (Hclick : step LANGUAGES w ClickGenerate =
                   mkRuntime (setOutputText EmptyString
                                (setError None (setIsLoading true (session w))))
                             (debounceTimeout w)
                             (inFlight w ++ [(generateCall LANGUAGES (session w),
                                              generateContinuation)])%list
                             (fileReaders w)).
  { unfold step. cbn [handle]. rewrite (handleGenerate_guarded (session w) Hb Hs).
    cbn [start withSession withInFlight session debounceTimeout inFlight fileReaders].
    apply commit_same_deps. unfold sameDetectionDeps. cbn.
    now rewrite !String.eqb_refl. }
  rewrite Hclick. split; [reflexivity |].
  rewrite (handleGenerate_guarded (session w) Hb Hs).
  unfold step. cbn [handle inFlight session debounceTimeout run].
  rewrite nth_error_app2, Nat.sub_diag by apply Nat.le_refl. cbn [nth_error].
  destruct (settle LANGUAGES (generateCall LANGUAGES (session w)) resp) as [result | message];
    cbn [generateContinuation start withSession withInFlight session debounceTimeout
         inFlight fileReaders run fst];
    rewrite commit_same_deps; try reflexivity;
    unfold sameDetectionDeps; cbn; now rewrite !String.eqb_refl.
Qed.

End Generate.

(** A translation, and a simplification at level 15. *)
Lemma generate_dispatch_witness :
  snd (run (fun _ => Resolved "Hello")
           (handleGenerate exampleLanguages (session typedAndChosen))
           (session typedAndChosen))
  = [translateTextCall "Ciao" "English" "Italian"]
  /\ snd (run (fun _ => Resolved "Hi")
              (handleGenerate exampleLanguages
                 (setEasyReadLevel 15 (setMode EASY_READ (session typedAndChosen))))
              (setEasyReadLevel 15 (setMode EASY_READ (session typedAndChosen))))
     = [simplifyTextCall "Ciao" "English" 15].
Proof.
  split.
  - apply (proj1 (generate_dispatch exampleLanguages (fun _ => Resolved "Hello")
                    (session typedAndChosen) eq_refl ltac:(discriminate))).
    reflexivity.
  - apply (proj1 (proj2 (generate_dispatch exampleLanguages (fun _ => Resolved "Hi")
                    (setEasyReadLevel 15 (setMode EASY_READ (session typedAndChosen)))
                    eq_refl ltac:(discriminate)))).
    reflexivity.
Defined.

(** A translation that fails, and one that succeeds. *)
Lemma generate_outcome_witness :
  (let s' := fst (run (fun _ => Rejected "Failed to get response from AI model.")
                      (handleGenerate exampleLanguages (session typedAndChosen))
                      (session typedAndChosen)) in
   isLoading s' = false /\ outputText s' = EmptyString
   /\ error s' = Some "Failed to get response from AI model." /\ error s' <> None)
  /\ (let s' := fst (run (fun _ => Resolved "Hello")
                         (handleGenerate exampleLanguages (session typedAndChosen))
                         (session typedAndChosen)) in
      isLoading s' = false /\ error s' = None /\ outputText s' = "Hello").
Proof.
  split.
  - apply (proj1 (generate_outcome exampleLanguages
                    (fun _ => Rejected "Failed to get response from AI model.")
                    (session typedAndChosen) eq_refl ltac:(discriminate))).
    reflexivity.
  - apply (proj2 (generate_outcome exampleLanguages (fun _ => Resolved "Hello")
                    (session typedAndChosen) eq_refl ltac:(discriminate))).
    reflexivity.
Defined.

(** On a freshly mounted page, where the input is empty and the source
    language on auto-detect, and after a text was typed with the source
    language still on auto-detect. *)
Lemma generate_noop_witness :
  (trim (inputText (session (mount exampleLanguages))) = EmptyString
   /\ step exampleLanguages (mount exampleLanguages) ClickGenerate = mount exampleLanguages)
  /\ (sourceLang (session (step exampleLanguages (mount exampleLanguages)
                             (ChangeInputText "Ciao"))) = DETECT_LANGUAGE_CODE
      /\ run (fun _ => Resolved "Hello")
             (handleGenerate exampleLanguages
                (session (step exampleLanguages (mount exampleLanguages)
                            (ChangeInputText "Ciao"))))
             (session (step exampleLanguages (mount exampleLanguages)
                         (ChangeInputText "Ciao")))
         = (session (step exampleLanguages (mount exampleLanguages)
                       (ChangeInputText "Ciao")), [])).
Proof.
  split; (split; [reflexivity |]).
  - apply (proj1 (generate_noop exampleLanguages (fun _ => Resolved "Hello")
                    (mount exampleLanguages) (or_introl eq_refl))).
  - apply (proj2 (generate_noop exampleLanguages (fun _ => Resolved "Hello")
                    (step exampleLanguages (mount exampleLanguages) (ChangeInputText "Ciao"))
                    (or_intror eq_refl))).
Defined.

(* ================================================================== *)
(** ** Language detection *)
(* ================================================================== *)

Lemma feasible_reachable (LANGUAGES : list Language) (es : list Event) (w : Runtime) :
  reachable LANGUAGES w -> feasible LANGUAGES w es = true ->
  reachable LANGUAGES (runEvents LANGUAGES w es).
Proof.
  revert w. induction es as [| e rest IH]; intros w Hw Hf; cbn in *; [exact Hw |].
  apply andb_true_iff in Hf. destruct Hf as [He Hrest].
  apply IH; [now apply reachable_step | exact Hrest].
Qed.

Section Detection.

Variable LANGUAGES : list Language.

Hypothesis catalog_without_sentinel :
  forall lang, In lang LANGUAGES -> code lang <> DETECT_LANGUAGE_CODE.

(** A name that no catalog entry matches makes the detection fail. *)
Lemma settle_detect_unmatched (text langName : string) :
  (forall x, In x LANGUAGES -> ~ equalIgnoringCase (name x) (trim langName)) ->
  settle LANGUAGES (detectLanguageCall text) (ResponseText langName)
  = Rejected "Failed to detect language.".
Proof.
  intros H. unfold settle. cbn [perform].
  rewrite exec_detectLanguage. cbn [fst].
  rewrite find_no_match; [reflexivity |].
  intros y Hy. apply nameMatches_false. auto.
Qed.

(** The callback awaiting a detection in flight, in a reachable state. *)
Lemma reachable_detection_in_flight (w : Runtime) (i : nat) (text : string)
      (k : Promise string -> Task) :
  reachable LANGUAGES w ->
  nth_error (inFlight w) i = Some (detectLanguageCall text, k) ->
  exists r, sourceLang r = DETECT_LANGUAGE_CODE /\ k = detectionContinuation LANGUAGES r.
Proof.
  intros Hreach Hnth.
  destruct (reachable_invariant LANGUAGES catalog_without_sentinel w Hreach)
    as (_ & _ & Hpend & _).
  rewrite Forall_forall in Hpend.
  destruct (Hpend _ (nth_error_In _ _ Hnth)) as (r & Hr & _ & Hk).
  exists r. auto.
Qed.

(** C9.  In every reachable state, when a detection in flight fails,
    whatever the reason, while the source language is on auto-detect:
    the callback sets the source language to [en] and leaves the error
    as it was; after the renders that follow the error is still as it
    was, and with a non-blank input the source language is [en]. *)
Theorem detection_failure_defaults_to_english
        (w : Runtime) (i : nat) (text : string) (k : Promise string -> Task)
        (resp : Response) (message : string) :
  reachable LANGUAGES w ->
  nth_error (inFlight w) i = Some (detectLanguageCall text, k) ->
  settle LANGUAGES (detectLanguageCall text) resp = Rejected message ->
  sourceLang (session w) = DETECT_LANGUAGE_CODE ->
  sourceLang (session (handle LANGUAGES (GatewaySettles i resp) w)) = "en"
  /\ error (session (handle LANGUAGES (GatewaySettles i resp) w)) = error (session w)
  /\ error (session (step LANGUAGES w (GatewaySettles i resp))) = error (session w)
  /\ (isBlank (inputText (session w)) = false ->
      sourceLang (session (step LANGUAGES w (GatewaySettles i resp))) = "en").
Proof.
  intros Hreach Hnth Hfail Hauto.
  destruct (reachable_detection_in_flight w i text k Hreach Hnth) as (r & Hr & ->).
  set (w0 := withInFlight (removeAt i (inFlight w)) w).
  assert (Hh : handle LANGUAGES (GatewaySettles i resp) w
               = start (detectionContinuation LANGUAGES r (Rejected message)) w0).
  { cbn [handle]. now rewrite Hnth, Hfail. }
  destruct (start_detectionContinuation LANGUAGES r (Rejected message) w0 Hr)
    as (_ & _ & Hsrc & _ & Herr & _ & _ & Hin).
  rewrite <- Hh in Hsrc, Herr, Hin. change (session w0) with (session w) in Herr, Hin.
  destruct (commit_frame LANGUAGES 2 (session w) (handle LANGUAGES (GatewaySettles i resp) w))
    as [(_ & _ & _ & _ & _ & _ & Herr' & _) _].
  unfold step. repeat split.
  - exact Hsrc.
  - exact Herr.
  - congruence.
  - intros Hb. rewrite commit_sourceLang_nonblank; [exact Hsrc | congruence].
Qed.

(** C1 in general: in a reachable state, a detection in flight that
    resolves writes the detected code into the source language whatever
    the source language is by then. *)
Lemma late_detection_always_applies
      (w : Runtime) (i : nat) (text : string) (k : Promise string -> Task)
      (resp : Response) (detectedLangCode : string) :
  reachable LANGUAGES w ->
  nth_error (inFlight w) i = Some (detectLanguageCall text, k) ->
  settle LANGUAGES (detectLanguageCall text) resp = Resolved detectedLangCode ->
  sourceLang (session (handle LANGUAGES (GatewaySettles i resp) w)) = detectedLangCode.
Proof.
  intros Hreach Hnth Hok.
  destruct (reachable_detection_in_flight w i text k Hreach Hnth) as (r & Hr & ->).
  set (w0 := withInFlight (removeAt i (inFlight w)) w).
  destruct (start_detectionContinuation LANGUAGES r (Resolved detectedLangCode) w0 Hr)
    as (_ & _ & Hsrc & _).
  cbn [handle]. now rewrite Hnth, Hok.
Qed.

End Detection.

Lemma detecting_reachable : reachable exampleLanguages detecting.
Proof.
  apply feasible_reachable; [apply reachable_mount | reflexivity].
Qed.

(** The detection of the French sentence fails, once because the
    endpoint names a language that is not in the catalog and once
    because the request fails: the source language becomes [en] and no
    error is stored. *)
Lemma detection_failure_defaults_to_english_witness :
  (sourceLang (session detecting) = DETECT_LANGUAGE_CODE
   /\ error (session detecting) = None)
  /\ (sourceLang (session (step exampleLanguages detecting
                             (GatewaySettles 0 (ResponseText "Klingon")))) = "en"
      /\ error (session (step exampleLanguages detecting
                           (GatewaySettles 0 (ResponseText "Klingon")))) = None)
  /\ (sourceLang (session (step exampleLanguages detecting
                             (GatewaySettles 0 (EndpointError "offline")))) = "en"
      /\ error (session (step exampleLanguages detecting
                           (GatewaySettles 0 (EndpointError "offline")))) = None).
Proof.
  split; [split; reflexivity |].
  split.
  - destruct (detection_failure_defaults_to_english exampleLanguages
                exampleLanguages_no_sentinel detecting 0
                "Bonjour, comment allez-vous?"
                (detectionContinuation exampleLanguages
                   (session (step exampleLanguages (mount exampleLanguages)
                               (ChangeInputText "Bonjour, comment allez-vous?"))))
                (ResponseText "Klingon") "Failed to detect language."
                detecting_reachable eq_refl eq_refl eq_refl)
      as (_ & _ & Herr & Hsrc).
    split; [apply Hsrc; reflexivity | exact Herr].
  - destruct (detection_failure_defaults_to_english exampleLanguages
                exampleLanguages_no_sentinel detecting 0
                "Bonjour, comment allez-vous?"
                (detectionContinuation exampleLanguages
                   (session (step exampleLanguages (mount exampleLanguages)
                               (ChangeInputText "Bonjour, comment allez-vous?"))))
                (EndpointError "offline") "Failed to detect language."
                detecting_reachable eq_refl eq_refl eq_refl)
      as (_ & _ & Herr & Hsrc).
    split; [apply Hsrc; reflexivity | exact Herr].
Defined.

(** C1 fails on the code.  The page lets every event of the race happen;
    before the answer the source language is the user's [de] and the
    detection for the earlier text is still in flight; after the answer
    the source language is the detected [fr].  The callback tests the
    [sourceLang] of the render that created it, which is [auto], and not
    the current one. *)
Theorem late_detection_overwrites_user_choice :
  let before := runEvents exampleLanguages (mount exampleLanguages) raceBeforeAnswer in
  let after := step exampleLanguages before (GatewaySettles 0 (ResponseText "French")) in
  feasible exampleLanguages (mount exampleLanguages)
           (raceBeforeAnswer ++ [GatewaySettles 0 (ResponseText "French")])%list = true
  /\ sourceLang (session before) = "de"
  /\ map fst (inFlight before) = [detectLanguageCall "Bonjour, comment allez-vous?"]
  /\ sourceLang (session after) = "fr"
  /\ sourceLang (session after) <> sourceLang (session before).
Proof.
  cbv zeta. split; [vm_compute; reflexivity |].
  split; [vm_compute; reflexivity |].
  split; [vm_compute; reflexivity |].
  split; [vm_compute; reflexivity |].
  vm_compute. discriminate.
Qed.

(** C2 fails on the code.  The page lets both events happen, and the
    state they lead to is in Normal mode with Italian as source and as
    target language: the source selector calls [setSourceLang] and
    nothing adjusts the target language, which is only left out of the
    options of the target selector. *)
Theorem source_selector_reaches_equal_languages :
  let w := runEvents exampleLanguages (mount exampleLanguages) chooseTargetAsSource in
  feasible exampleLanguages (mount exampleLanguages) chooseTargetAsSource = true
  /\ reachable exampleLanguages w
  /\ mode (session w) = NORMAL
  /\ sourceLang (session w) = "it"
  /\ targetLang (session w) = "it"
  /\ hasCode (targetLang (session w))
             (targetLanguages exampleLanguages (sourceLang (session w))) = false.
Proof.
  cbv zeta. split; [vm_compute; reflexivity |].
  split; [apply feasible_reachable; [apply reachable_mount | vm_compute; reflexivity] |].
  repeat split; vm_compute; reflexivity.
Qed.

(** The same two events violate C2 for every catalog that offers
    Italian, whatever else it holds. *)
Lemma italian_source_equals_default_target (LANGUAGES : list Language) :
  hasCode "it" LANGUAGES = true ->
  let w := runEvents LANGUAGES (mount LANGUAGES) chooseTargetAsSource in
  reachable LANGUAGES w
  /\ mode (session w) = NORMAL
  /\ targetLang (session w) = sourceLang (session w).
Proof.
  intros Hit. cbv zeta. split; [| split; reflexivity].
  apply feasible_reachable; [apply reachable_mount |].
  unfold hasCode in Hit. cbn. now rewrite Hit.
Qed.

(* ================================================================== *)
(** ** The output panel: keyword chips *)
(* ================================================================== *)

Lemma startsWith_app (sep t : string) : startsWith sep (sep ++ t) = true.
Proof.
  induction sep as [| a sep IH]; cbn; [now destruct t |].
  now rewrite Ascii.eqb_refl, IH.
Qed.

Lemma startsWith_inv (sep s : string) :
  startsWith sep s = true -> exists t, s = sep ++ t.
Proof.
  revert s. induction sep as [| a sep IH]; intros s H; cbn in *.
  - now exists s.
  - destruct s as [| b s]; [discriminate |].
    apply andb_true_iff in H. destruct H as [Hab Hs].
    apply Ascii.eqb_eq in Hab. subst b.
    destruct (IH s Hs) as (t & ->). now exists t.
Qed.

Lemma splitFrom_skip (sep t rest : string) :
  splitFrom sep (String.length t) (t ++ rest) = splitFrom sep 0 rest.
Proof.
  induction t as [| a t IH]; cbn [String.length append].
  - reflexivity.
  - cbn [splitFrom]. exact IH.
Qed.

Lemma join_push (sep : string) (c : ascii) (word : string) (words : list string) :
  join sep (String c word :: words) = String c (join sep (word :: words)).
Proof. destruct words; reflexivity. Qed.

Lemma append_length (a b : string) :
  String.length (a ++ b) = (String.length a + String.length b)%nat.
Proof. induction a as [| c a IH]; cbn; [reflexivity | now rewrite IH]. Qed.

(** One step of the scan, for a non-empty separator. *)
Lemma splitFrom_step (a : ascii) (sep' : string) (c : ascii) (r : string) :
  let sep := String a sep' in
  (startsWith sep (String c r) = true /\
   exists rest, String c r = sep ++ rest
                /\ splitFrom sep 0 (String c r)
                   = (EmptyString, fst (splitFrom sep 0 rest) :: snd (splitFrom sep 0 rest)))
  \/ (startsWith sep (String c r) = false /\
      splitFrom sep 0 (String c r)
      = (String c (fst (splitFrom sep 0 r)), snd (splitFrom sep 0 r))).
Proof.
  cbv zeta. destruct (startsWith (String a sep') (String c r)) eqn:E.
  - left. split; [reflexivity |].
    destruct (startsWith_inv _ _ E) as (rest & Hrest).
    exists rest. split; [exact Hrest |].
    cbn [splitFrom]. rewrite E.
    cbn [append] in Hrest. injection Hrest as _ ->.
    cbn [String.length]. rewrite Nat.sub_succ, Nat.sub_0_r, splitFrom_skip.
    now destruct (splitFrom (String a sep') 0 rest).
  - right. split; [reflexivity |].
    cbn [splitFrom]. rewrite E.
    now destruct (splitFrom (String a sep') 0 r).
Qed.

(** Joining the pieces of a split with the separator gives the string
    back. *)
Lemma join_splitOn (sep s : string) :
  sep <> EmptyString -> join sep (splitOn sep s) = s.
Proof.
  intros Hsep. destruct sep as [| a sep']; [congruence |]. clear Hsep.
  unfold splitOn.
  assert (H : forall n s, (String.length s <= n)%nat ->
                          join (String a sep')
                               (fst (splitFrom (String a sep') 0 s)
                                :: snd (splitFrom (String a sep') 0 s)) = s).
  { induction n as [| n IH]; intros t Hlen.
    - destruct t; [reflexivity | cbn in Hlen; inversion Hlen].
    - destruct t as [| c r]; [reflexivity |].
      destruct (splitFrom_step a sep' c r) as [(_ & rest & Heq & ->) | (_ & ->)].
      + cbn [fst snd]. rewrite Heq.
        assert (Hr : (String.length rest <= n)%nat).
        { rewrite Heq in Hlen. rewrite append_length in Hlen. cbn in Hlen.
          apply le_S_n in Hlen. eapply Nat.le_trans; [| exact Hlen].
          apply Nat.le_add_l. }
        specialize (IH rest Hr).
        change (join (String a sep') (EmptyString :: ?x :: ?y))
          with (EmptyString ++ String a sep' ++ join (String a sep') (x :: y)).
        now rewrite IH.
      + cbn [fst snd]. rewrite join_push. f_equal. apply IH.
        cbn in Hlen. now apply le_S_n. }
  specialize (H (String.length s) s (Nat.le_refl _)).
  now destruct (splitFrom (String a sep') 0 s).
Qed.

Lemma append_empty_r (s : string) : s ++ EmptyString = s.
Proof. induction s as [| c s IH]; cbn; [reflexivity | now rewrite IH]. Qed.

Lemma append_assoc (a b c : string) : (a ++ b) ++ c = a ++ b ++ c.
Proof. induction a as [| x a IH]; cbn; [reflexivity | now rewrite IH]. Qed.

Lemma join_head (sep word : string) (words : list string) :
  exists tail, join sep (word :: words) = word ++ tail.
Proof.
  destruct words as [| w ws].
  - exists EmptyString. cbn. now rewrite append_empty_r.
  - now exists (sep ++ join sep (w :: ws)).
Qed.

(** No piece of a split holds the separator. *)
Lemma splitOn_pieces (sep s : string) :
  sep <> EmptyString -> Forall (fun word => ~ contains sep word) (splitOn sep s).
Proof.
  intros Hsep. destruct sep as [| a sep']; [congruence |]. clear Hsep.
  unfold splitOn.
  assert (H : forall n s, (String.length s <= n)%nat ->
                          Forall (fun word => ~ contains (String a sep') word)
                                 (fst (splitFrom (String a sep') 0 s)
                                  :: snd (splitFrom (String a sep') 0 s))).
  { induction n as [| n IH]; intros t Hlen.
    - destruct t; [| cbn in Hlen; inversion Hlen].
      cbn. constructor; [| constructor].
      intros (x & y & Hxy). destruct x; discriminate.
    - destruct t as [| c r].
      + cbn. constructor; [| constructor].
        intros (x & y & Hxy). destruct x; discriminate.
      + destruct (splitFrom_step a sep' c r) as [(_ & rest & Heq & ->) | (Hno & ->)].
        * cbn [fst snd]. constructor.
          -- intros (x & y & Hxy). destruct x; discriminate.
          -- apply IH. rewrite Heq in Hlen. rewrite append_length in Hlen. cbn in Hlen.
             apply le_S_n in Hlen. eapply Nat.le_trans; [| exact Hlen].
             apply Nat.le_add_l.
        * cbn [fst snd].
          assert (Hr : (String.length r <= n)%nat) by (cbn in Hlen; now apply le_S_n).
          pose proof (IH r Hr) as Hall. inversion Hall as [| ? ? Hhead Htail]; subst.
          constructor; [| exact Htail].
          intros (x & y & Hxy). destruct x as [| c' x].
          -- cbn [append] in Hxy.
             pose proof (join_splitOn (String a sep') r ltac:(discriminate)) as Hjoin.
             unfold splitOn in Hjoin.
             destruct (splitFrom (String a sep') 0 r) as [piece pieces]. cbn [fst snd] in *.
             destruct (join_head (String a sep') piece pieces) as (tail & Htl).
             rewrite Htl in Hjoin.
             assert (Hstart : String c r = String a sep' ++ (y ++ tail)).
             { rewrite <- Hjoin.
               change (String c (piece ++ tail)) with (String c piece ++ tail).
               rewrite Hxy. cbn [append]. now rewrite append_assoc. }
             rewrite Hstart, startsWith_app in Hno. discriminate.
          -- cbn [append] in Hxy. injection Hxy as _ Hp.
             apply Hhead. now exists x, y. }
  specialize (H (String.length s) s (Nat.le_refl _)).
  now destruct (splitFrom (String a sep') 0 s).
Qed.

(** X1.  When the panel shows keyword chips, the chips are the pieces of
    the output between the occurrences of " - ": joining them with
    " - " gives the output back, no chip holds " - ", and there is at
    least one chip. *)
Theorem keywordChips_rebuild_output (s : Session) (words : list string) :
  renderOutput s = KeywordChips words ->
  join " - " words = outputText s
  /\ Forall (fun word => ~ contains " - " word) words
  /\ words <> []
  /\ mode s = AAC.
Proof.
  unfold renderOutput. intros H.
  assert (Hw : words = splitOn " - " (outputText s) /\ mode s = AAC).
  { destruct (isLoading s); [discriminate |].
    destruct (truthy (outputText s)); cbn in H.
    - destruct (mode s); cbn in H;
        destruct (error s) as [m |]; try destruct (truthy m); try discriminate;
        injection H as <-; auto.
    - destruct (error s) as [m |]; try destruct (truthy m); discriminate. }
  destruct Hw as [-> Hm].
  split; [apply join_splitOn; discriminate |].
  split; [apply splitOn_pieces; discriminate |].
  split; [| exact Hm].
  unfold splitOn. destruct (splitFrom _ 0 _). discriminate.
Qed.

(** The answer "I - want - water" is shown as the three chips I, want
    and water. *)
Lemma keywordChips_rebuild_output_witness :
  renderOutput aacAnswered = KeywordChips ["I"; "want"; "water"]
  /\ join " - " ["I"; "want"; "water"] = outputText aacAnswered.
Proof.
  split; [reflexivity |].
  apply (keywordChips_rebuild_output aacAnswered ["I"; "want"; "water"]).
  reflexivity.
Defined.

(* ================================================================== *)
(** ** The service: one request per call *)
(* ================================================================== *)

Lemma exec_extractTextFromImage (endpoint : Request -> Response)
      (base64Image : option string) (mimeType : string) :
  let req := mkRequest geminiFlash
               (Parts base64Image mimeType
                  "Extract all text from this image. If no text is found, return an empty string.") in
  exec endpoint (extractTextFromImage base64Image mimeType) =
  (match endpoint req with
   | ResponseText text => Resolved text
   | EndpointError _ => Rejected "Failed to extract text from image."
   end, [req]).
Proof.
  cbv zeta. unfold extractTextFromImage, awaitText. cbn.
  destruct (endpoint _); reflexivity.
Qed.

(** X2.  Every function of the service sends exactly one request, to
    the model gemini-2.5-flash, and never a second one.  If that request
    fails, the promise is rejected with the fixed message of the
    function, whatever the endpoint reported.  If it is answered, every
    function but [detectLanguage] resolves to the text of the response
    as it is. *)
Theorem service_call_outcome
        (LANGUAGES : list Language) (call : GatewayCall) (endpoint : Request -> Response) :
  exists req,
    snd (exec endpoint (perform LANGUAGES call)) = [req]
    /\ model req = geminiFlash
    /\ (forall message,
           endpoint req = EndpointError message ->
           fst (exec endpoint (perform LANGUAGES call)) = Rejected (failureMessage call))
    /\ (forall text,
           endpoint req = ResponseText text ->
           (forall t, call <> detectLanguageCall t) ->
           fst (exec endpoint (perform LANGUAGES call)) = Resolved text).
Proof.
  destruct call as [text | base64 fileType | text src tgt | text lang level | text lang];
    cbn [perform].
  - rewrite exec_detectLanguage. exists (detectRequest text). cbn [fst snd].
    repeat split.
    + intros message ->. reflexivity.
    + intros t _ H. now elim (H text).
  - rewrite exec_extractTextFromImage. eexists. cbn [fst snd].
    repeat split.
    + intros message ->. reflexivity.
    + intros t -> _. reflexivity.
  - unfold translateText. cbv zeta. rewrite exec_generateContent. eexists. cbn [fst snd].
    repeat split.
    + intros message ->. reflexivity.
    + intros t -> _. reflexivity.
  - unfold simplifyText. cbv zeta. rewrite exec_generateContent. eexists. cbn [fst snd].
    repeat split.
    + intros message ->. reflexivity.
    + intros t -> _. reflexivity.
  - unfold generateAAC. cbv zeta. rewrite exec_generateContent. eexists. cbn [fst snd].
    repeat split.
    + intros message ->. reflexivity.
    + intros t -> _. reflexivity.
Qed.

(** A translation answered with padded text resolves to that text,
    padding included; a text extraction whose request fails is rejected
    with the message of [extractTextFromImage]. *)
Lemma service_call_outcome_witness :
  fst (exec (fun _ => ResponseText " Hello ")
            (perform exampleLanguages (translateTextCall "Ciao" "Italian" "English")))
  = Resolved " Hello "
  /\ fst (exec (fun _ => EndpointError "quota exceeded")
               (perform exampleLanguages (extractTextFromImageCall (Some "aGk=") "image/png")))
     = Rejected "Failed to extract text from image.".
Proof.
  split.
  - destruct (service_call_outcome exampleLanguages
                (translateTextCall "Ciao" "Italian" "English")
                (fun _ => ResponseText " Hello "))
      as (req & _ & _ & _ & Hok).
    apply Hok; [reflexivity | discriminate].
  - destruct (service_call_outcome exampleLanguages
                (extractTextFromImageCall (Some "aGk=") "image/png")
                (fun _ => EndpointError "quota exceeded"))
      as (req & _ & _ & Hfail & _).
    apply (Hfail "quota exceeded"). reflexivity.
Defined.

(* ================================================================== *)
(** ** What the panel shows after a generation *)
(* ================================================================== *)

Section GeneratedOutput.

Variable LANGUAGES : list Language.


(** X4.  The language name sent to the service for a code is the name
    of the first catalog entry with that code; when that name is empty,
    or when the catalog has no entry with the code, the code itself is
    sent. *)
Theorem langName_fallback (c : string) :
  (forall pre lang post,
      LANGUAGES = (pre ++ lang :: post)%list ->
      (forall x, In x pre -> code x <> c) -> code lang = c ->
      langName LANGUAGES c = if truthy (name lang) then name lang else c)
  /\ ((forall x, In x LANGUAGES -> code x <> c) -> langName LANGUAGES c = c).
Proof.
  split.
  - intros pre lang post -> Hpre Hc. unfold langName.
    rewrite find_first_match; [reflexivity | | now apply String.eqb_eq].
    intros y Hy. apply String.eqb_neq. auto.
  - apply langName_missing.
Qed.

End GeneratedOutput.


(** The code [fr] is sent as "French"; the fallback [en] of a catalog
    without English, and any code the catalog lacks, is sent as it is. *)
Lemma langName_fallback_witness :
  langName exampleLanguages "fr" = "French"
  /\ langName [mkLanguage "it" "Italian"] "en" = "en".
Proof.
  split.
  - apply (proj1 (langName_fallback exampleLanguages "fr")
             [mkLanguage "en" "English"; mkLanguage "it" "Italian"]
             (mkLanguage "fr" "French")
             [mkLanguage "de" "German"; mkLanguage "es" "Spanish";
              mkLanguage "ja" "Japanese"]).
    + reflexivity.
    + intros x [<- | [<- | []]]; discriminate.
    + reflexivity.
  - apply (proj2 (langName_fallback [mkLanguage "it" "Italian"] "en")).
    intros x [<- | []]; discriminate.
Defined.

(* ================================================================== *)
(** ** The debounce timeout and the detecting flag *)
(* ================================================================== *)

Section DetectionState.

Variable LANGUAGES : list Language.

Hypothesis catalog_without_sentinel :
  forall lang, In lang LANGUAGES -> code lang <> DETECT_LANGUAGE_CODE.

Lemma start_debounceTimeout (t : Task) (w : Runtime) :
  debounceTimeout (start t w) = debounceTimeout w.
Proof.
  revert w. induction t as [| f k IH | call k IH]; intros w; cbn [start].
  - reflexivity.
  - now rewrite IH.
  - reflexivity.
Qed.

(** A render whose dependencies changed sets the timeout and the flag
    together. *)
Lemma runEffects_fresh (prev : Session) (w : Runtime) :
  sameDetectionDeps prev (session w) = false ->
  timerCurrent LANGUAGES (runEffects LANGUAGES prev w)
  /\ (isDetectingLang (session (runEffects LANGUAGES prev w)) = true ->
      debounceTimeout (runEffects LANGUAGES prev w) <> None).
Proof.
  intros Hd. unfold runEffects, timerCurrent. rewrite Hd.
  unfold detectionEffect, resetEffect, withSession, withDebounceTimeout.
  destruct (sourceLang (session w) =? DETECT_LANGUAGE_CODE) eqn:Es; cbn [andb negb].
  - apply String.eqb_eq in Es. rewrite andb_false_r.
    destruct (10 <? String.length (trim (inputText (session w))))%nat eqn:El;
      destruct (sameResetDeps prev (session w)); cbn.
    + apply Nat.ltb_lt in El. repeat split; auto; try discriminate.
      exists (session w). auto.
    + apply Nat.ltb_lt in El. repeat split; auto; try discriminate.
      exists (session w). auto.
    + split; [exact I | discriminate].
    + split; [exact I | discriminate].
  - destruct (sameResetDeps prev (session w)); cbn.
    + split; [exact I | discriminate].
    + destruct (isBlank (inputText (session w))); cbn; (split; [exact I | discriminate]).
Qed.

Lemma commit_fresh (n : nat) (prev : Session) (w : Runtime) :
  sameDetectionDeps prev (session w) = false ->
  timerCurrent LANGUAGES (commit LANGUAGES (S n) prev w)
  /\ (isDetectingLang (session (commit LANGUAGES (S n) prev w)) = true ->
      debounceTimeout (commit LANGUAGES (S n) prev w) <> None).
Proof.
  revert prev w. induction n as [| n IH]; intros prev w Hd.
  - cbn [commit].
    destruct (sameDetectionDeps (session w) (session (runEffects LANGUAGES prev w)));
      now apply runEffects_fresh.
  - change (commit LANGUAGES (S (S n)) prev w)
      with (if sameDetectionDeps (session w) (session (runEffects LANGUAGES prev w))
            then runEffects LANGUAGES prev w
            else commit LANGUAGES (S n) (session w) (runEffects LANGUAGES prev w)).
    destruct (sameDetectionDeps (session w) _) eqn:E.
    + now apply runEffects_fresh.
    + now apply IH.
Qed.

Lemma existsb_removeAt {A : Type} (f : A -> bool) (i : nat) (l : list A) (x : A) :
  nth_error l i = Some x -> f x = false ->
  existsb f l = true -> existsb f (removeAt i l) = true.
Proof.
  revert i. induction l as [| y l IH]; intros [| i] Hn Hx He; cbn in *; try discriminate.
  - injection Hn as ->. now rewrite Hx in He.
  - destruct (f y); [reflexivity | cbn in *; eauto].
Qed.

(** A detected code is the code of a catalog entry. *)
Lemma settle_detect_resolved (text : string) (resp : Response) (d : string) :
  settle LANGUAGES (detectLanguageCall text) resp = Resolved d ->
  exists lang, In lang LANGUAGES /\ code lang = d.
Proof.
  unfold settle. cbn [perform]. rewrite exec_detectLanguage. cbn [fst].
  destruct resp as [langName | m]; [| discriminate].
  destruct (find (nameMatches langName) LANGUAGES) as [lang |] eqn:E; [| discriminate].
  intros [= <-]. exists lang. split; [| reflexivity]. now apply find_some in E.
Qed.

(** A handler that leaves the dependencies, the flag and the timeout as
    they were, and drops no detection in flight, keeps the invariant. *)
Lemma detectionInvariant_transfer (w w' : Runtime) :
  detectionInvariant LANGUAGES w ->
  sameDetectionDeps (session w) (session w') = true ->
  isDetectingLang (session w') = isDetectingLang (session w) ->
  debounceTimeout w' = debounceTimeout w ->
  (existsb isDetection (inFlight w) = true -> existsb isDetection (inFlight w') = true) ->
  detectionInvariant LANGUAGES w'.
Proof.
  intros (Htc & Hflag) Hd Hf Ht Hin.
  apply sameDetectionDeps_eq in Hd. destruct Hd as (Hi & Hs & Htg).
  unfold detectionInvariant, timerCurrent, detectionPending in *.
  rewrite Ht, Hf, <- Hi, <- Hs, <- Htg. split; [exact Htc |].
  intros H. destruct (Hflag H) as [H1 | H1]; auto.
Qed.

Lemma existsb_isDetection_app (l l' : list (GatewayCall * (Promise string -> Task))) :
  existsb isDetection l = true -> existsb isDetection (l ++ l')%list = true.
Proof. intros H. rewrite existsb_app, H. reflexivity. Qed.

End DetectionState.

Section DetectionReachable.

Variable LANGUAGES : list Language.

Hypothesis catalog_without_sentinel :
  forall lang, In lang LANGUAGES -> code lang <> DETECT_LANGUAGE_CODE.

(** A handler that leaves the dependencies as they were keeps the
    invariant. *)
Lemma handle_detectionInvariant (w : Runtime) (e : Event) :
  invariant LANGUAGES w -> detectionInvariant LANGUAGES w ->
  enabled LANGUAGES w e = true ->
  sameDetectionDeps (session w) (session (handle LANGUAGES e w)) = true ->
  detectionInvariant LANGUAGES (handle LANGUAGES e w).
Proof.
  intros (_ & _ & Hpend & Htim) Hdet Hen Hd.
  destruct e as [m | text | c | c | n | | | fileType | | | | i result | i | | i resp];
    cbn [handle] in *;
    try (apply (detectionInvariant_transfer LANGUAGES w);
         [exact Hdet | exact Hd | reflexivity | reflexivity | auto]).
  - (* swap *)
    apply (detectionInvariant_transfer LANGUAGES w); [exact Hdet | exact Hd | | | ];
      unfold handleSwapLanguages;
      destruct (modeIs (mode (session w)) NORMAL && _); cbn; auto.
  - (* generate *)
    apply (detectionInvariant_transfer LANGUAGES w); [exact Hdet | exact Hd | | | ];
      unfold handleGenerate;
      destruct (isBlank (inputText (session w)) || _); cbn; auto.
    apply existsb_isDetection_app.
  - (* a file has been read *)
    destruct (nth_error (fileReaders w) i) as [fileType |]; [| exact Hdet].
    apply (detectionInvariant_transfer LANGUAGES w);
      [exact Hdet | exact Hd | reflexivity | reflexivity |].
    cbn. apply existsb_isDetection_app.
  - (* a file could not be read *)
    destruct (nth_error (fileReaders w) i); [| exact Hdet].
    apply (detectionInvariant_transfer LANGUAGES w);
      [exact Hdet | exact Hd | reflexivity | reflexivity | auto].
  - (* the timeout fires *)
    cbn in Hen. destruct (debounceTimeout w) as [t |] eqn:Et; [| discriminate].
    cbn in Htim. destruct Htim as (r & Hr & ->).
    cbn. unfold detectionInvariant, timerCurrent, detectionPending. cbn.
    split; [exact I |]. intros _. right.
    rewrite existsb_app. cbn. now rewrite orb_true_r.
  - (* a call settles *)
    destruct (nth_error (inFlight w) i) as [[call k] |] eqn:E; [| exact Hdet].
    assert (Hk : pendingOK LANGUAGES (call, k)).
    { rewrite Forall_forall in Hpend. apply Hpend. eapply nth_error_In; eassumption. }
    set (w0 := withInFlight (removeAt i (inFlight w)) w) in *.
    unfold pendingOK in Hk. cbn in Hk.
    destruct call as [text | base64 fileType | text src tgt | text lang level | text lang].
    + (* a detection *)
      destruct Hk as (r & Hr & _ & ->).
      destruct (start_detectionContinuation LANGUAGES r
                  (settle LANGUAGES (detectLanguageCall text) resp) w0 Hr)
        as (_ & Ht & Hsrc & _ & _ & Hflag & _ & Hin).
      apply sameDetectionDeps_eq in Hd. destruct Hd as (Hdi & Hds & Hdt).
      unfold detectionInvariant. split.
      * unfold timerCurrent. rewrite Ht. change (debounceTimeout w0) with (debounceTimeout w).
        destruct Hdet as (Htc & _). unfold timerCurrent in Htc.
        destruct (debounceTimeout w) as [t |]; [| exact I].
        destruct Htc as (Hauto & _). exfalso.
        rewrite Hds, Hsrc in Hauto.
        destruct (settle LANGUAGES (detectLanguageCall text) resp) as [d |] eqn:Es.
        -- destruct (settle_detect_resolved LANGUAGES text resp d Es) as (lang & Hl & Hc).
           apply (catalog_without_sentinel lang Hl). congruence.
        -- discriminate.
      * rewrite Hflag. discriminate.
    + (* a text extraction *)
      subst k.
      apply (detectionInvariant_transfer LANGUAGES w); [exact Hdet | exact Hd | | | ].
      * destruct (settle LANGUAGES _ resp); reflexivity.
      * now rewrite start_debounceTimeout.
      * intros He.
        destruct (start_imageContinuation
                    (settle LANGUAGES (extractTextFromImageCall base64 fileType) resp) w0)
          as (-> & _).
        cbn. now apply (existsb_removeAt _ _ _ _ E).
    + subst k.
      apply (detectionInvariant_transfer LANGUAGES w); [exact Hdet | exact Hd | | | ].
      * destruct (settle LANGUAGES _ resp); reflexivity.
      * now rewrite start_debounceTimeout.
      * intros He.
        destruct (start_generateContinuation
                    (settle LANGUAGES (translateTextCall text src tgt) resp) w0)
          as (-> & _).
        cbn. now apply (existsb_removeAt _ _ _ _ E).
    + subst k.
      apply (detectionInvariant_transfer LANGUAGES w); [exact Hdet | exact Hd | | | ].
      * destruct (settle LANGUAGES _ resp); reflexivity.
      * now rewrite start_debounceTimeout.
      * intros He.
        destruct (start_generateContinuation
                    (settle LANGUAGES (simplifyTextCall text lang level) resp) w0)
          as (-> & _).
        cbn. now apply (existsb_removeAt _ _ _ _ E).
    + subst k.
      apply (detectionInvariant_transfer LANGUAGES w); [exact Hdet | exact Hd | | | ].
      * destruct (settle LANGUAGES _ resp); reflexivity.
      * now rewrite start_debounceTimeout.
      * intros He.
        destruct (start_generateContinuation
                    (settle LANGUAGES (generateAACCall text lang) resp) w0)
          as (-> & _).
        cbn. now apply (existsb_removeAt _ _ _ _ E).
Qed.

Lemma step_detectionInvariant (w : Runtime) (e : Event) :
  invariant LANGUAGES w -> detectionInvariant LANGUAGES w ->
  enabled LANGUAGES w e = true ->
  detectionInvariant LANGUAGES (step LANGUAGES w e).
Proof.
  intros Hinv Hdet Hen. unfold step.
  destruct (sameDetectionDeps (session w) (session (handle LANGUAGES e w))) eqn:Hd.
  - rewrite (commit_same_deps LANGUAGES 2 _ _ Hd).
    now apply handle_detectionInvariant.
  - destruct (commit_fresh LANGUAGES 1 (session w) (handle LANGUAGES e w) Hd) as [Htc Hflag].
    split; [exact Htc |]. intros H. left. now apply Hflag.
Qed.

Lemma reachable_detectionInvariant (w : Runtime) :
  reachable LANGUAGES w -> detectionInvariant LANGUAGES w.
Proof.
  induction 1 as [| w e Hreach IH Hen].
  - unfold detectionInvariant, timerCurrent, detectionPending. cbn.
    split; [exact I | discriminate].
  - apply step_detectionInvariant; auto.
    now apply (reachable_invariant LANGUAGES catalog_without_sentinel).
Qed.

End DetectionReachable.

(** X5.  The two effects never keep each other running: whatever the
    state and whatever the previous render saw, the renders that follow
    an update come to rest after at most two rounds of effects, and
    allowing any number of further rounds changes nothing.  At rest the
    source language is on auto-detect if the input text or the source
    language had changed, the input is blank and the source language
    was concrete; otherwise it is what the update left; no other field
    but the detecting flag is touched. *)
Theorem effects_settle (LANGUAGES : list Language) (n : nat) (prev : Session) (w : Runtime) :
  let rest := commit LANGUAGES (2 + n) prev w in
  rest = commit LANGUAGES 2 prev w
  /\ sourceLang (session rest)
     = (if negb (sameResetDeps prev (session w)) && isBlank (inputText (session w))
           && negb (sourceLang (session w) =? DETECT_LANGUAGE_CODE)
        then DETECT_LANGUAGE_CODE else sourceLang (session w))
  /\ sameButDetection (session rest) (session w)
  /\ inFlight rest = inFlight w.
Proof.
  cbv zeta. rewrite commit_fuel.
  split; [reflexivity |].
  split; [| apply commit_frame].
  cbn [commit].
  set (w1 := runEffects LANGUAGES prev w).
  pose proof (runEffects_sourceLang LANGUAGES prev w) as Hsrc. fold w1 in Hsrc.
  destruct (runEffects_frame LANGUAGES prev w) as [(_ & Hin & _ & Htg & _) _].
  fold w1 in Hin, Htg.
  set (reset := negb (sameResetDeps prev (session w)) && isBlank (inputText (session w))
                && negb (sourceLang (session w) =? DETECT_LANGUAGE_CODE)) in *.
  destruct (sameDetectionDeps (session w) (session w1)) eqn:D; [exact Hsrc |].
  assert (Hif : (if sameDetectionDeps (session w1)
                       (session (runEffects LANGUAGES (session w) w1))
                 then runEffects LANGUAGES (session w) w1
                 else runEffects LANGUAGES (session w) w1)
                = runEffects LANGUAGES (session w) w1)
    by (now destruct (sameDetectionDeps (session w1) _)).
  rewrite Hif, runEffects_sourceLang.
  destruct reset.
  - rewrite Hsrc. cbn. now rewrite andb_false_r.
  - exfalso.
    assert (sameDetectionDeps (session w) (session w1) = true); [| congruence].
    apply sameDetectionDeps_eq. repeat split; congruence.
Qed.

Section ReachableProperties.

Variable LANGUAGES : list Language.

Hypothesis catalog_without_sentinel :
  forall lang, In lang LANGUAGES -> code lang <> DETECT_LANGUAGE_CODE.

(** X6.  In every reachable state the target language is a concrete
    code: it is never the sentinel [auto], whatever the user selects,
    swaps or uploads and whatever the detections answer. *)
Theorem reachable_target_never_sentinel (w : Runtime) :
  reachable LANGUAGES w -> targetLang (session w) <> DETECT_LANGUAGE_CODE.
Proof.
  intros Hreach.
  now destruct (reachable_invariant LANGUAGES catalog_without_sentinel w Hreach).
Qed.

(** X7.  In every reachable state a concrete source language comes with
    a non-blank input; and when the input is replaced by a blank text,
    the source language is back on auto-detect once the renders have
    come to rest. *)
Theorem cleared_input_resets_source (w : Runtime) :
  reachable LANGUAGES w ->
  (sourceLang (session w) <> DETECT_LANGUAGE_CODE -> isBlank (inputText (session w)) = false)
  /\ (forall text,
         isBlank text = true ->
         sourceLang (session (step LANGUAGES w (ChangeInputText text)))
         = DETECT_LANGUAGE_CODE).
Proof.
  intros Hreach.
  destruct (reachable_invariant LANGUAGES catalog_without_sentinel w Hreach)
    as (_ & Hst & _).
  split; [exact Hst |].
  intros text Hb. unfold step.
  pose proof (commit_stable LANGUAGES 1 (session w)
                (handle LANGUAGES (ChangeInputText text) w) Hst) as Hst'.
  destruct (commit_frame LANGUAGES 2 (session w) (handle LANGUAGES (ChangeInputText text) w))
    as [(_ & Hin & _) _].
  unfold stable in Hst'. rewrite Hin in Hst'. cbn in Hst'.
  destruct (String.eqb_spec
              (sourceLang (session (commit LANGUAGES 2 (session w)
                                      (handle LANGUAGES (ChangeInputText text) w))))
              DETECT_LANGUAGE_CODE) as [Heq | Hne]; [exact Heq |].
  specialize (Hst' Hne). congruence.
Qed.

(** X8.  In every reachable state a pending debounce timeout belongs to
    the current state: the source language is on auto-detect, the
    trimmed input is longer than 10 characters and the detecting flag is
    up; and when the timeout fires, the one request it adds is a
    detection of the current input text, and no timeout is left
    pending. *)
Theorem pending_timeout_is_current (w : Runtime) (t : Task) :
  reachable LANGUAGES w ->
  debounceTimeout w = Some t ->
  sourceLang (session w) = DETECT_LANGUAGE_CODE
  /\ (10 < String.length (trim (inputText (session w))))%nat
  /\ isDetectingLang (session w) = true
  /\ map fst (inFlight (step LANGUAGES w TimeoutFires))
     = (map fst (inFlight w) ++ [detectLanguageCall (inputText (session w))])%list
  /\ debounceTimeout (step LANGUAGES w TimeoutFires) = None
  /\ session (step LANGUAGES w TimeoutFires) = session w.
Proof.
  intros Hreach Ht.
  destruct (reachable_detectionInvariant LANGUAGES catalog_without_sentinel w Hreach)
    as (Htc & _).
  unfold timerCurrent in Htc. rewrite Ht in Htc.
  destruct Htc as (Hauto & Hlen & Hflag & r & -> & _ & Hin & _).
  assert (Hstep : step LANGUAGES w TimeoutFires
                  = withInFlight (inFlight w ++ [(detectLanguageCall (inputText r),
                                                  detectionContinuation LANGUAGES r)])%list
                                 (withDebounceTimeout None w)).
  { unfold step. cbn [handle]. rewrite Ht. cbn [detectionTimeout start].
    apply commit_same_deps. apply sameDetectionDeps_refl. }
  rewrite Hstep. cbn. rewrite map_app, Hin. repeat split; auto.
Qed.

(** X9.  In every reachable state, when the detecting flag is up (the
    source selector is then disabled) a detection is on its way: its
    timeout is pending or its request is in flight.  The selector is
    never left locked with nothing to unlock it. *)
Theorem detecting_flag_has_cause (w : Runtime) :
  reachable LANGUAGES w ->
  isDetectingLang (session w) = true ->
  detectionPending w.
Proof.
  intros Hreach Hflag.
  destruct (reachable_detectionInvariant LANGUAGES catalog_without_sentinel w Hreach)
    as (_ & H).
  now apply H.
Qed.

End ReachableProperties.

Lemma debouncing_reachable : reachable exampleLanguages debouncing.
Proof.
  unfold debouncing. apply reachable_step; [apply reachable_mount | reflexivity].
Qed.

(** After a swap from English to Italian the target is English. *)
Lemma reachable_target_never_sentinel_witness :
  targetLang (session typedAndChosen) = "it"
  /\ targetLang (session typedAndChosen) <> DETECT_LANGUAGE_CODE.
Proof.
  split; [reflexivity |].
  apply (reachable_target_never_sentinel exampleLanguages exampleLanguages_no_sentinel
           typedAndChosen typedAndChosen_reachable).
Defined.

(** With English chosen for the text "Ciao", replacing the text by two
    spaces puts the source language back on auto-detect. *)
Lemma cleared_input_resets_source_witness :
  sourceLang (session typedAndChosen) = "en"
  /\ sourceLang (session (step exampleLanguages typedAndChosen (ChangeInputText "  ")))
     = DETECT_LANGUAGE_CODE.
Proof.
  split; [reflexivity |].
  apply (proj2 (cleared_input_resets_source exampleLanguages exampleLanguages_no_sentinel
                  typedAndChosen typedAndChosen_reachable)).
  reflexivity.
Defined.

(** While the French sentence is being debounced, the timeout is
    pending; when it fires, the sentence is what is sent for
    detection. *)
Lemma pending_timeout_is_current_witness :
  map fst (inFlight (step exampleLanguages debouncing TimeoutFires))
  = [detectLanguageCall "Bonjour, comment allez-vous?"]
  /\ isDetectingLang (session debouncing) = true.
Proof.
  destruct (pending_timeout_is_current exampleLanguages exampleLanguages_no_sentinel
              debouncing
              (detectionTimeout exampleLanguages
                 (setInputText "Bonjour, comment allez-vous?" initialSession))
              debouncing_reachable eq_refl)
    as (_ & _ & Hflag & Hcalls & _).
  split; [exact Hcalls | exact Hflag].
Defined.

(** While the French sentence is being debounced the flag is up and the
    timeout is pending. *)
Lemma detecting_flag_has_cause_witness :
  isDetectingLang (session debouncing) = true /\ detectionPending debouncing.
Proof.
  split; [reflexivity |].
  apply (detecting_flag_has_cause exampleLanguages exampleLanguages_no_sentinel
           debouncing debouncing_reachable).
  reflexivity.
Defined.

(* ================================================================== *)
(** ** A detection that nothing disturbs *)
(* ================================================================== *)

Section UndisturbedDetection.

Variable LANGUAGES : list Language.

Hypothesis catalog_without_sentinel :
  forall lang, In lang LANGUAGES -> code lang <> DETECT_LANGUAGE_CODE.

Lemma newTarget_other (d : string) :
  (exists lang, In lang LANGUAGES /\ code lang <> d) ->
  exists l, newTarget LANGUAGES d = Some l /\ code l <> d.
Proof.
  intros (lang & Hin & Hne). unfold newTarget.
  destruct (find (fun l => negb (code l =? d) && (code l =? "en")) LANGUAGES) as [l |] eqn:E1.
  - exists l. split; [reflexivity |].
    apply find_some in E1. destruct E1 as [_ E1].
    apply andb_true_iff in E1. destruct E1 as [E1 _].
    now apply negb_true_iff, String.eqb_neq in E1.
  - destruct (find (fun l => negb (code l =? d)) LANGUAGES) as [l |] eqn:E2.
    + exists l. split; [reflexivity |].
      apply find_some in E2. destruct E2 as [_ E2].
      now apply negb_true_iff, String.eqb_neq in E2.
    + exfalso. pose proof (find_none _ _ E2 lang Hin) as H. cbn in H.
      apply negb_false_iff, String.eqb_eq in H. contradiction.
Qed.

Lemma newTarget_english (d : string) :
  d <> "en" -> hasCode "en" LANGUAGES = true ->
  exists l, newTarget LANGUAGES d = Some l /\ code l = "en".
Proof.
  intros Hd Hen. unfold hasCode in Hen. apply existsb_exists in Hen.
  destruct Hen as (lang & Hin & Hc). apply String.eqb_eq in Hc.
  unfold newTarget.
  destruct (find (fun l => negb (code l =? d) && (code l =? "en")) LANGUAGES) as [l |] eqn:E1.
  - exists l. split; [reflexivity |].
    apply find_some in E1. destruct E1 as [_ E1].
    apply andb_true_iff in E1. destruct E1 as [_ E1]. now apply String.eqb_eq in E1.
  - exfalso. pose proof (find_none _ _ E1 lang Hin) as H. cbv beta in H.
    assert (Hne : ("en" =? d) = false) by (apply String.eqb_neq; congruence).
    rewrite Hc, Hne, String.eqb_refl in H. discriminate.
Qed.

Lemma start_detectionContinuation_target (r : Session) (d : string) (w : Runtime) :
  sourceLang r = DETECT_LANGUAGE_CODE ->
  targetLang (session (start (detectionContinuation LANGUAGES r (Resolved d)) w))
  = if targetLang r =? d
    then match newTarget LANGUAGES d with
         | Some l => code l
         | None => targetLang (session w)
         end
    else targetLang (session w).
Proof.
  intros Hr. unfold detectionContinuation. rewrite Hr. cbn.
  destruct (targetLang r =? d); [| reflexivity].
  destruct (newTarget LANGUAGES d); reflexivity.
Qed.

Lemma long_not_blank (text : string) :
  (10 < String.length (trim text))%nat -> isBlank text = false.
Proof.
  unfold isBlank. destruct (trim text); cbn; [intros H; inversion H | reflexivity].
Qed.

(** X10.  In every reachable state with a pending debounce timeout: if
    the timeout fires and the endpoint then answers with the name of a
    catalog language before anything else happens, the source language
    becomes the code of that language, the detecting flag drops and no
    timeout is pending.  The target language stays if it differs from
    the detected code; if it equals the detected code it is reassigned,
    to [en] when the catalog has [en] and the detected code is not
    [en], and to a code different from the detected one whenever the
    catalog has another language. *)
Theorem undisturbed_detection (w : Runtime) (t : Task) (resp : Response) (d : string) :
  reachable LANGUAGES w ->
  debounceTimeout w = Some t ->
  settle LANGUAGES (detectLanguageCall (inputText (session w))) resp = Resolved d ->
  let w1 := step LANGUAGES w TimeoutFires in
  let w2 := step LANGUAGES w1 (GatewaySettles (List.length (inFlight w)) resp) in
  sourceLang (session w2) = d
  /\ isDetectingLang (session w2) = false
  /\ debounceTimeout w2 = None
  /\ (targetLang (session w) <> d -> targetLang (session w2) = targetLang (session w))
  /\ (targetLang (session w) = d ->
      (exists lang, In lang LANGUAGES /\ code lang <> d) ->
      targetLang (session w2) <> sourceLang (session w2))
  /\ (targetLang (session w) = d -> d <> "en" -> hasCode "en" LANGUAGES = true ->
      targetLang (session w2) = "en").
Proof.
  intros Hreach Ht Hok. cbv zeta.
  destruct (reachable_detectionInvariant LANGUAGES catalog_without_sentinel w Hreach)
    as (Htc & _).
  unfold timerCurrent in Htc. rewrite Ht in Htc.
  destruct Htc as (Hauto & Hlen & _ & r & -> & Hr & Hin & Htg).
  assert (Hnb : isBlank (inputText (session w)) = false) by now apply long_not_blank.
  assert (Hd : d <> DETECT_LANGUAGE_CODE).
  { destruct (settle_detect_resolved LANGUAGES _ _ _ Hok) as (lang & Hl & <-).
    now apply catalog_without_sentinel. }
  assert (Hstep : step LANGUAGES w TimeoutFires
                  = withInFlight (inFlight w ++ [(detectLanguageCall (inputText r),
                                                  detectionContinuation LANGUAGES r)])%list
                                 (withDebounceTimeout None w)).
  { unfold step. cbn [handle]. rewrite Ht. cbn [detectionTimeout start].
    apply commit_same_deps. apply sameDetectionDeps_refl. }
  rewrite Hstep. clear Hstep.
  set (w1 := withInFlight _ (withDebounceTimeout None w)).
  set (w0 := withInFlight (removeAt (List.length (inFlight w)) (inFlight w1)) w1).
  assert (Hh : handle LANGUAGES (GatewaySettles (List.length (inFlight w)) resp) w1
               = start (detectionContinuation LANGUAGES r (Resolved d)) w0).
  { cbn [handle]. unfold w1 at 1. cbn [inFlight withInFlight].
    rewrite nth_error_app2, Nat.sub_diag by apply Nat.le_refl. cbn [nth_error].
    now rewrite Hin, Hok. }
  destruct (start_detectionContinuation LANGUAGES r (Resolved d) w0 Hr)
    as (_ & _ & Hsrc & _ & _ & _ & _ & Hin0).
  pose proof (start_detectionContinuation_target r d w0 Hr) as Htarget.
  rewrite <- Hh in Hsrc, Hin0, Htarget.
  change (session w0) with (session w) in Hin0, Htarget.
  unfold step. change (session w1) with (session w).
  set (h := handle LANGUAGES (GatewaySettles (List.length (inFlight w)) resp) w1) in *.
  assert (Hchanged : sameDetectionDeps (session w) (session h) = false).
  { destruct (sameDetectionDeps (session w) (session h)) eqn:E; [| reflexivity].
    apply sameDetectionDeps_eq in E. destruct E as (_ & E & _). congruence. }
  destruct (commit_fresh LANGUAGES 1 (session w) h Hchanged) as [Htc Hflag].
  destruct (commit_frame LANGUAGES 2 (session w) h) as [(_ & _ & _ & Hft & _) _].
  assert (Hs2 : sourceLang (session (commit LANGUAGES 2 (session w) h)) = d).
  { rewrite commit_sourceLang_nonblank; [exact Hsrc | congruence]. }
  assert (Ht2 : debounceTimeout (commit LANGUAGES 2 (session w) h) = None).
  { unfold timerCurrent in Htc.
    destruct (debounceTimeout (commit LANGUAGES 2 (session w) h)); [| reflexivity].
    destruct Htc as (Habs & _). congruence. }
  rewrite Hs2, Hft, Htarget, Htg.
  repeat split.
  - destruct (isDetectingLang (session (commit LANGUAGES 2 (session w) h))) eqn:E;
      [| reflexivity].
    now elim (Hflag eq_refl).
  - exact Ht2.
  - intros Hne. apply String.eqb_neq in Hne. now rewrite Hne.
  - intros -> Hother. rewrite String.eqb_refl.
    destruct (newTarget_other _ Hother) as (l & -> & Hl). exact Hl.
  - intros -> Hen Hhas. rewrite String.eqb_refl.
    destruct (newTarget_english _ Hen Hhas) as (l & -> & Hl). exact Hl.
Qed.

End UndisturbedDetection.

Lemma debouncingItalian_reachable : reachable exampleLanguages debouncingItalian.
Proof.
  unfold debouncingItalian. apply reachable_step; [apply reachable_mount | reflexivity].
Qed.

(** An Italian sentence is typed while the target language is Italian:
    once it is detected, the source language is [it] and the target
    language has moved to [en]. *)
Lemma undisturbed_detection_witness :
  targetLang (session debouncingItalian) = "it"
  /\ sourceLang (session (step exampleLanguages
                            (step exampleLanguages debouncingItalian TimeoutFires)
                            (GatewaySettles 0 (ResponseText "Italian")))) = "it"
  /\ targetLang (session (step exampleLanguages
                            (step exampleLanguages debouncingItalian TimeoutFires)
                            (GatewaySettles 0 (ResponseText "Italian")))) = "en".
Proof.
  split; [reflexivity |].
  destruct (undisturbed_detection exampleLanguages exampleLanguages_no_sentinel
              debouncingItalian
              (detectionTimeout exampleLanguages
                 (setInputText "Buongiorno, come sta oggi?" initialSession))
              (ResponseText "Italian") "it"
              debouncingItalian_reachable eq_refl eq_refl)
    as (Hsrc & _ & _ & _ & _ & Hen).
  split; [exact Hsrc |].
  apply Hen; [reflexivity | discriminate | reflexivity].
Defined.

(* ================================================================== *)
(** ** Images *)
(* ================================================================== *)

Lemma split_without_separator (sep : ascii) (s : string) :
  ~ contains (String sep EmptyString) s -> split sep s = [s].
Proof.
  induction s as [| c r IH]; intros Hno; cbn [split]; [reflexivity |].
  destruct (Ascii.eqb_spec c sep) as [-> | Hne].
  - exfalso. apply Hno. now exists EmptyString, r.
  - rewrite IH; [reflexivity |].
    intros (a & b & ->). apply Hno. now exists (String c a), b.
Qed.

Lemma split_at_separator (sep : ascii) (header rest : string) :
  ~ contains (String sep EmptyString) header ->
  split sep (header ++ String sep rest) = header :: split sep rest.
Proof.
  induction header as [| c h IH]; intros Hno; cbn [append split].
  - now rewrite Ascii.eqb_refl.
  - destruct (Ascii.eqb_spec c sep) as [-> | Hne].
    + exfalso. apply Hno. now exists EmptyString, h.
    + rewrite IH; [reflexivity |].
      intros (a & b & ->). apply Hno. now exists (String c a), b.
Qed.

(** X11.  What [reader.onloadend] sends for extraction is the part of
    the data URL between its first and its second comma: for a data URL
    made of a header and a payload, neither holding a comma, the payload
    as it is; and when the result of the reader holds no comma at all,
    no data (the call is made all the same, with [undefined]). *)
Theorem data_url_payload (fileType : string) :
  (forall header data,
      ~ contains "," header -> ~ contains "," data ->
      readerOnLoadEnd fileType (header ++ "," ++ data)
      = Update (setImagePreview (Some (header ++ "," ++ data)))
          (AwaitGateway (extractTextFromImageCall (Some data) fileType) imageContinuation))
  /\ (forall result,
      ~ contains "," result ->
      readerOnLoadEnd fileType result
      = Update (setImagePreview (Some result))
          (AwaitGateway (extractTextFromImageCall None fileType) imageContinuation)).
Proof.
  split.
  - intros header data Hh Hd. unfold readerOnLoadEnd. cbv zeta.
    change (ascii_of_N 44) with ","%char.
    change (header ++ "," ++ data) with (header ++ String ","%char data).
    rewrite split_at_separator by exact Hh.
    rewrite split_without_separator by exact Hd.
    reflexivity.
  - intros result Hr. unfold readerOnLoadEnd. cbv zeta.
    change (ascii_of_N 44) with ","%char.
    rewrite split_without_separator by exact Hr.
    reflexivity.
Qed.

Section ImageUpload.

Variable LANGUAGES : list Language.

(** X12.  An image is chosen, its file is read, and the endpoint
    answers the extraction, with nothing in between.  Choosing raises
    the loading flag and clears the error.  The end of the reading
    stores the data URL as preview and puts one extraction call in
    flight.  The answer lowers the loading flag; if it carries a text,
    that text replaces the whole input and the error stays cleared; if
    the request failed, the input is what it was and the error is the
    message of [extractTextFromImage]. *)
Theorem image_upload_outcome (w : Runtime) (fileType result : string) (resp : Response) :
  let w1 := step LANGUAGES w (SelectImage fileType) in
  let w2 := step LANGUAGES w1 (ReaderLoads (List.length (fileReaders w)) result) in
  let w3 := step LANGUAGES w2 (GatewaySettles (List.length (inFlight w)) resp) in
  (isLoading (session w1) = true /\ error (session w1) = None)
  /\ imagePreview (session w2) = Some result
  /\ map fst (inFlight w2)
     = (map fst (inFlight w)
        ++ [extractTextFromImageCall (nth_error (split ","%char result) 1) fileType])%list
  /\ isLoading (session w3) = false
  /\ (forall text, resp = ResponseText text ->
                   inputText (session w3) = text /\ error (session w3) = None)
  /\ (forall message, resp = EndpointError message ->
                      inputText (session w3) = inputText (session w)
                      /\ error (session w3) = Some "Failed to extract text from image.").
Proof.
  cbv zeta.
  assert (H1 : step LANGUAGES w (SelectImage fileType)
               = mkRuntime (setError None (setIsLoading true (session w)))
                           (debounceTimeout w) (inFlight w)
                           (fileReaders w ++ [fileType])%list).
  { unfold step. cbn [handle handleImageUpload start withSession withFileReaders
                      session debounceTimeout inFlight fileReaders].
    apply commit_same_deps. unfold sameDetectionDeps. cbn. now rewrite !String.eqb_refl. }
  rewrite H1. clear H1.
  set (w1 := mkRuntime _ (debounceTimeout w) (inFlight w) _).
  assert (H2 : step LANGUAGES w1 (ReaderLoads (List.length (fileReaders w)) result)
               = mkRuntime (setImagePreview (Some result) (session w1))
                           (debounceTimeout w)
                           (inFlight w
                            ++ [(extractTextFromImageCall
                                   (nth_error (split ","%char result) 1) fileType,
                                 imageContinuation)])%list
                           (removeAt (List.length (fileReaders w))
                                     (fileReaders w ++ [fileType])%list)).
  { unfold step. cbn [handle].
    change (fileReaders w1) with (fileReaders w ++ [fileType])%list.
    rewrite nth_error_app2, Nat.sub_diag by apply Nat.le_refl. cbn [nth_error].
    unfold readerOnLoadEnd. cbv zeta.
    cbn [start withSession withFileReaders withInFlight
         session debounceTimeout inFlight fileReaders].
    apply commit_same_deps. unfold sameDetectionDeps. cbn. now rewrite !String.eqb_refl. }
  rewrite H2. clear H2.
  set (w2 := mkRuntime (setImagePreview (Some result) (session w1)) _ _ _).
  split; [split; reflexivity |].
  split; [reflexivity |].
  split; [cbn; now rewrite map_app |].
  unfold step.
  set (h := handle LANGUAGES (GatewaySettles (List.length (inFlight w)) resp) w2).
  destruct (commit_frame LANGUAGES 2 (session w2) h)
    as [(_ & Hin & _ & _ & _ & Hload & Herr & _) _].
  rewrite Hin, Hload, Herr.
  assert (Hh : h = start (imageContinuation
                            (settle LANGUAGES
                               (extractTextFromImageCall
                                  (nth_error (split ","%char result) 1) fileType) resp))
                         (withInFlight (removeAt (List.length (inFlight w)) (inFlight w2)) w2)).
  { unfold h. cbn [handle].
    change (nth_error (inFlight w2) (List.length (inFlight w)))
      with (nth_error (inFlight w
                       ++ [(extractTextFromImageCall
                              (nth_error (split ","%char result) 1) fileType,
                            imageContinuation)])%list (List.length (inFlight w))).
    rewrite nth_error_app2, Nat.sub_diag by apply Nat.le_refl. reflexivity. }
  rewrite Hh. unfold settle. cbn [perform].
  rewrite exec_extractTextFromImage. cbn [fst].
  destruct resp as [text | message]; cbn;
    (split; [reflexivity | split; [intros t H | intros m H]]); try discriminate.
  - injection H as <-. split; reflexivity.
  - split; reflexivity.
Qed.

(** X13.  Changing the mode or the level, generating, choosing or
    capturing an image, the end of a file reading, and opening or
    closing the camera neither start nor cancel a detection: no effect
    runs, and the pending timeout, the detecting flag, the input text
    and the two languages are what they were. *)
Theorem detection_untouched (w : Runtime) (e : Event) :
  leavesLanguagesAlone e = true ->
  step LANGUAGES w e = handle LANGUAGES e w
  /\ debounceTimeout (step LANGUAGES w e) = debounceTimeout w
  /\ isDetectingLang (session (step LANGUAGES w e)) = isDetectingLang (session w)
  /\ inputText (session (step LANGUAGES w e)) = inputText (session w)
  /\ sourceLang (session (step LANGUAGES w e)) = sourceLang (session w)
  /\ targetLang (session (step LANGUAGES w e)) = targetLang (session w).
Proof.
  intros He.
  assert (H : debounceTimeout (handle LANGUAGES e w) = debounceTimeout w
              /\ isDetectingLang (session (handle LANGUAGES e w)) = isDetectingLang (session w)
              /\ inputText (session (handle LANGUAGES e w)) = inputText (session w)
              /\ sourceLang (session (handle LANGUAGES e w)) = sourceLang (session w)
              /\ targetLang (session (handle LANGUAGES e w)) = targetLang (session w)).
  { destruct e as [m | text | c | c | n | | | fileType | | | | i result | i | | i resp];
      try discriminate; cbn [handle]; try (cbn; tauto).
    - unfold handleGenerate.
      destruct (isBlank (inputText (session w)) || _); cbn; tauto.
    - destruct (nth_error (fileReaders w) i); cbn; tauto.
    - destruct (nth_error (fileReaders w) i); cbn; tauto. }
  assert (Hstep : step LANGUAGES w e = handle LANGUAGES e w).
  { unfold step. apply commit_same_deps. apply sameDetectionDeps_eq.
    destruct H as (_ & _ & -> & -> & ->). auto. }
  rewrite Hstep. tauto.
Qed.

End ImageUpload.

(** A PNG is chosen and read; the endpoint finds the text "Ciao a
    tutti" in it. *)
Lemma image_upload_outcome_witness :
  let w3 := step exampleLanguages
              (step exampleLanguages
                 (step exampleLanguages typedAndChosen (SelectImage "image/png"))
                 (ReaderLoads 0 "data:image/png;base64,aGk="))
              (GatewaySettles 0 (ResponseText "Ciao a tutti")) in
  inputText (session w3) = "Ciao a tutti" /\ error (session w3) = None.
Proof.
  cbv zeta.
  apply (proj1 (proj2 (proj2 (proj2 (proj2
           (image_upload_outcome exampleLanguages typedAndChosen "image/png"
              "data:image/png;base64,aGk=" (ResponseText "Ciao a tutti"))))))
           "Ciao a tutti").
  reflexivity.
Defined.

(** The payload of a PNG data URL. *)
Lemma data_url_payload_witness :
  readerOnLoadEnd "image/png" "data:image/png;base64,aGk="
  = Update (setImagePreview (Some "data:image/png;base64,aGk="))
      (AwaitGateway (extractTextFromImageCall (Some "aGk=") "image/png") imageContinuation).
Proof.
  apply (proj1 (data_url_payload "image/png") "data:image/png;base64" "aGk=").
  - intros (a & b & H). vm_compute in H.
    repeat (destruct a as [| ? a]; [discriminate | injection H as _ H]).
    destruct a; discriminate.
  - intros (a & b & H). vm_compute in H.
    repeat (destruct a as [| ? a]; [discriminate | injection H as _ H]).
    destruct a; discriminate.
Defined.

(** Switching to AAC mode while the French sentence is being debounced
    leaves the timeout pending. *)
Lemma detection_untouched_witness :
  debounceTimeout (step exampleLanguages debouncing (ChangeMode AAC))
  = debounceTimeout debouncing.
Proof.
  apply (detection_untouched exampleLanguages debouncing (ChangeMode AAC)).
  reflexivity.
Defined.

(* ================================================================== *)
(** ** Typing restarts the debounce *)
(* ================================================================== *)

Section Debounce.

Variable LANGUAGES : list Language.

(** X14.  While the source language is on auto-detect, a change of the
    input text replaces whatever timeout was pending: if the new text,
    trimmed, is longer than 10 characters, the pending timeout is the
    detection of the new text and the detecting flag is up; if not, no
    timeout is pending and the flag is down.  The calls in flight are
    left as they are. *)
Theorem typing_restarts_debounce (w : Runtime) (text : string) :
  sourceLang (session w) = DETECT_LANGUAGE_CODE ->
  text <> inputText (session w) ->
  let w' := step LANGUAGES w (ChangeInputText text) in
  inputText (session w') = text
  /\ inFlight w' = inFlight w
  /\ ((10 < String.length (trim text))%nat ->
      debounceTimeout w' = Some (detectionTimeout LANGUAGES (setInputText text (session w)))
      /\ isDetectingLang (session w') = true)
  /\ ((String.length (trim text) <= 10)%nat ->
      debounceTimeout w' = None /\ isDetectingLang (session w') = false).
Proof.
  intros Hauto Hne. cbv zeta. unfold step. cbn [handle start].
  set (w0 := withSession (setInputText text (session w)) w).
  assert (Hd : sameDetectionDeps (session w) (session w0) = false).
  { destruct (sameDetectionDeps (session w) (session w0)) eqn:E; [| reflexivity].
    apply sameDetectionDeps_eq in E. destruct E as (E & _). cbn in E. congruence. }
  assert (Hrun : runEffects LANGUAGES (session w) w0 = detectionEffect LANGUAGES (session w0) w0).
  { unfold runEffects. rewrite Hd.
    destruct (sameResetDeps (session w) (session w0)); [reflexivity |].
    unfold resetEffect.
    change (sourceLang (session w0)) with (sourceLang (session w)). rewrite Hauto.
    cbn. now rewrite andb_false_r. }
  assert (Hcommit : commit LANGUAGES 2 (session w) w0 = detectionEffect LANGUAGES (session w0) w0).
  { cbn [commit]. rewrite Hrun.
    assert (Hs : sameDetectionDeps (session w0)
                   (session (detectionEffect LANGUAGES (session w0) w0)) = true).
    { apply sameDetectionDeps_eq. unfold detectionEffect.
      destruct (_ && _); cbn; auto. }
    now rewrite Hs. }
  rewrite Hcommit. unfold detectionEffect.
  change (sourceLang (session w0)) with (sourceLang (session w)).
  change (inputText (session w0)) with text.
  rewrite Hauto. cbn [String.eqb andb].
  change (DETECT_LANGUAGE_CODE =? DETECT_LANGUAGE_CODE) with true. cbn [andb].
  destruct (10 <? String.length (trim text))%nat eqn:El; cbn;
    (split; [reflexivity |]); (split; [reflexivity |]).
  - apply Nat.ltb_lt in El. split; [intros _; split; reflexivity |].
    intros Hle. exfalso. apply (Nat.lt_irrefl 10).
    eapply Nat.lt_le_trans; eassumption.
  - apply Nat.ltb_ge in El. split; [| intros _; split; reflexivity].
    intros Hlt. exfalso. apply (Nat.lt_irrefl 10).
    eapply Nat.lt_le_trans; eassumption.
Qed.

End Debounce.

(** While "Bonjour, comment allez-vous?" is being debounced, the user
    shortens the text to "Bonjour": no timeout is left pending. *)
Lemma typing_restarts_debounce_witness :
  debounceTimeout debouncing <> None
  /\ debounceTimeout (step exampleLanguages debouncing (ChangeInputText "Bonjour")) = None
  /\ isDetectingLang (session (step exampleLanguages debouncing (ChangeInputText "Bonjour")))
     = false.
Proof.
  split; [vm_compute; discriminate |].
  apply (proj2 (proj2 (proj2 (typing_restarts_debounce exampleLanguages debouncing "Bonjour"
                                eq_refl ltac:(vm_compute; discriminate))))).
  vm_compute. repeat constructor.
Defined.

(* ================================================================== *)
(** ** A generation in the event loop *)
(* ================================================================== *)

Lemma In_removeAt {A : Type} (x : A) (i : nat) (l : list A) :
  In x l -> In x (removeAt i l) \/ nth_error l i = Some x.
Proof.
  revert i. induction l as [| y l IH]; intros i Hin; [contradiction |].
  destruct i as [| i]; cbn.
  - destruct Hin as [-> | Hin]; [now right | now left].
  - destruct Hin as [-> | Hin]; [left; now left |].
    destruct (IH i Hin) as [H | H]; [left; now right | now right].
Qed.

Lemma start_inFlight_In (x : GatewayCall * (Promise string -> Task)) (t : Task) (w : Runtime) :
  In x (inFlight w) -> In x (inFlight (start t w)).
Proof.
  revert w. induction t as [| f k IH | call k IH]; intros w Hin; cbn [start].
  - exact Hin.
  - now apply IH.
  - cbn. apply in_or_app. now left.
Qed.

Section GenerateInEventLoop.

Variable LANGUAGES : list Language.

(** A call in flight stays in flight, with its continuation, until the
    endpoint answers it: no other event takes it away. *)
Lemma inFlight_persists (w : Runtime) (e : Event)
      (x : GatewayCall * (Promise string -> Task)) :
  In x (inFlight w) ->
  In x (inFlight (step LANGUAGES w e))
  \/ exists i resp, e = GatewaySettles i resp /\ nth_error (inFlight w) i = Some x.
Proof.
  intros Hin. unfold step.
  destruct (commit_frame LANGUAGES 2 (session w) (handle LANGUAGES e w)) as [_ ->].
  destruct e as [m | text | c | c | n | | | fileType | | | | i result | i | | i resp];
    cbn [handle]; try (left; now apply start_inFlight_In).
  - destruct (nth_error (fileReaders w) i); [| now left].
    left. now apply start_inFlight_In.
  - destruct (nth_error (fileReaders w) i); [| now left].
    left. now apply start_inFlight_In.
  - destruct (debounceTimeout w); [| now left].
    left. now apply start_inFlight_In.
  - destruct (nth_error (inFlight w) i) as [[call k] |] eqn:E; [| now left].
    destruct (In_removeAt x i (inFlight w) Hin) as [H | H].
    + left. now apply start_inFlight_In.
    + right. exists i, resp. split; [reflexivity | exact H].
Qed.

(** The answer to a generation, in whatever state it arrives. *)
Lemma step_generation_settles (w : Runtime) (i : nat) (call : GatewayCall) (resp : Response) :
  nth_error (inFlight w) i = Some (call, generateContinuation) ->
  let final := session (step LANGUAGES w (GatewaySettles i resp)) in
  isLoading final = false
  /\ (forall message,
         settle LANGUAGES call resp = Rejected message ->
         error final = Some message /\ outputText final = outputText (session w))
  /\ (forall result,
         settle LANGUAGES call resp = Resolved result ->
         outputText final = result /\ error final = error (session w)).
Proof.
  intros Hnth. cbv zeta. unfold step.
  destruct (commit_frame LANGUAGES 2 (session w) (handle LANGUAGES (GatewaySettles i resp) w))
    as [(_ & _ & Hout & _ & _ & Hload & Herr & _) _].
  rewrite Hout, Hload, Herr. cbn [handle]. rewrite Hnth.
  destruct (settle LANGUAGES call resp) as [result | message]; cbn.
  - split; [reflexivity |]. split.
    + intros m H. discriminate.
    + intros r H. injection H as <-. split; reflexivity.
  - split; [reflexivity |]. split.
    + intros m H. injection H as <-. split; reflexivity.
    + intros r H. discriminate.
Qed.

(** C5, as the code has it.  When the input is not blank and the source
    language is concrete, a click on the button raises the loading flag,
    clears the error and the output, and puts exactly one call in
    flight.  In whatever state the answer to that call arrives, it
    lowers the loading flag; a failure stores its message as error (so
    the error is non-null) and leaves the output as it is by then; a
    success stores the result as output and leaves the error as it is
    by then.  If nothing happens between the click and the answer, a
    failure therefore ends with an empty output and a success with no
    error. *)
Theorem generate_call_outcome (w : Runtime) :
  isBlank (inputText (session w)) = false ->
  sourceLang (session w) <> DETECT_LANGUAGE_CODE ->
  let call := generateCall LANGUAGES (session w) in
  let clicked := step LANGUAGES w ClickGenerate in
  (isLoading (session clicked) = true
   /\ error (session clicked) = None
   /\ outputText (session clicked) = EmptyString
   /\ inFlight clicked = (inFlight w ++ [(call, generateContinuation)])%list)
  /\ (forall (later : Runtime) (i : nat) (resp : Response),
         nth_error (inFlight later) i = Some (call, generateContinuation) ->
         let final := session (step LANGUAGES later (GatewaySettles i resp)) in
         isLoading final = false
         /\ (forall message,
                settle LANGUAGES call resp = Rejected message ->
                error final = Some message /\ error final <> None
                /\ outputText final = outputText (session later))
         /\ (forall result,
                settle LANGUAGES call resp = Resolved result ->
                outputText final = result /\ error final = error (session later)))
  /\ (forall (resp : Response),
         let final :=
           session (step LANGUAGES clicked (GatewaySettles (List.length (inFlight w)) resp)) in
         (forall message,
             settle LANGUAGES call resp = Rejected message ->
             isLoading final = false /\ outputText final = EmptyString
             /\ error final = Some message /\ error final <> None)
         /\ (forall result,
             settle LANGUAGES call resp = Resolved result ->
             isLoading final = false /\ error final = None /\ outputText final = result)).
Proof.
  intros Hb Hs. cbv zeta.
  assert (Hclick : step LANGUAGES w ClickGenerate =
                   mkRuntime (setOutputText EmptyString
                                (setError None (setIsLoading true (session w))))
                             (debounceTimeout w)
                             (inFlight w ++ [(generateCall LANGUAGES (session w),
                                              generateContinuation)])%list
                             (fileReaders w)).
  { unfold step. cbn [handle]. rewrite (handleGenerate_guarded LANGUAGES (session w) Hb Hs).
    cbn [start withSession withInFlight session debounceTimeout inFlight fileReaders].
    apply commit_same_deps. unfold sameDetectionDeps. cbn.
    now rewrite !String.eqb_refl. }
  rewrite Hclick.
  split; [cbn; auto |].
  split.
  - intros later i resp Hnth.
    destruct (step_generation_settles later i _ resp Hnth) as (Hload & Hfail & Hok).
    split; [exact Hload |]. split.
    + intros message Hm. destruct (Hfail message Hm) as [He Ho].
      repeat split; [exact He | rewrite He; discriminate | exact Ho].
    + exact Hok.
  - intros resp.
    set (clicked := mkRuntime _ (debounceTimeout w) _ (fileReaders w)).
    assert (Hnth : nth_error (inFlight clicked) (List.length (inFlight w))
                   = Some (generateCall LANGUAGES (session w), generateContinuation)).
    { cbn [clicked inFlight].
      now rewrite nth_error_app2, Nat.sub_diag by apply Nat.le_refl. }
    destruct (step_generation_settles clicked _ _ resp Hnth) as (Hload & Hfail & Hok).
    split.
    + intros message Hm. destruct (Hfail message Hm) as [He Ho].
      repeat split; [exact Hload | exact Ho | exact He | rewrite He; discriminate].
    + intros result Hr. destruct (Hok result Hr) as [Ho He].
      repeat split; [exact Hload | exact He | exact Ho].
Qed.

End GenerateInEventLoop.

(** A translation of "Ciao" whose request fails, answered at once: the
    loading flag is down, the output empty, the error the message of the
    service.  One that succeeds: the result is the output and there is
    no error. *)
Lemma generate_call_outcome_witness :
  (isBlank (inputText (session typedAndChosen)) = false
   /\ sourceLang (session typedAndChosen) <> DETECT_LANGUAGE_CODE)
  /\ (let final := session (step exampleLanguages
                              (step exampleLanguages typedAndChosen ClickGenerate)
                              (GatewaySettles 0 (EndpointError "offline"))) in
      isLoading final = false /\ outputText final = EmptyString
      /\ error final = Some "Failed to get response from AI model." /\ error final <> None)
  /\ (let final := session (step exampleLanguages
                              (step exampleLanguages typedAndChosen ClickGenerate)
                              (GatewaySettles 0 (ResponseText "Hello"))) in
      isLoading final = false /\ error final = None /\ outputText final = "Hello").
Proof.
  split; [split; [reflexivity | discriminate] |].
  split.
  - apply (proj1 (proj2 (proj2 (generate_call_outcome exampleLanguages typedAndChosen
                                  eq_refl ltac:(discriminate)))
                        (EndpointError "offline"))
             "Failed to get response from AI model.").
    reflexivity.
  - apply (proj2 (proj2 (proj2 (generate_call_outcome exampleLanguages typedAndChosen
                                  eq_refl ltac:(discriminate)))
                        (ResponseText "Hello"))
             "Hello").
    reflexivity.
Defined.

(** C5 as stated fails.  The page lets every event of the two
    interleavings happen.  In the first the generation succeeds with
    "Hello" and the state it ends in has the error of the image reading.
    In the second the first generation fails and the state it ends in
    has the output of the second. *)
Lemma generate_outcome_not_isolated :
  (settle exampleLanguages (generateCall exampleLanguages (session typedAndChosen))
          (ResponseText "Hello") = Resolved "Hello"
   /\ settle exampleLanguages (generateCall exampleLanguages (session typedAndChosen))
             (EndpointError "offline") = Rejected "Failed to get response from AI model.")
  /\ (feasible exampleLanguages typedAndChosen generateWhileImageFails = true
   /\ outputText (session (runEvents exampleLanguages typedAndChosen generateWhileImageFails))
      = "Hello"
   /\ error (session (runEvents exampleLanguages typedAndChosen generateWhileImageFails))
      = Some "Failed to read the image file.")
  /\ (feasible exampleLanguages typedAndChosen generateTwice = true
      /\ error (session (runEvents exampleLanguages typedAndChosen generateTwice))
         = Some "Failed to get response from AI model."
      /\ outputText (session (runEvents exampleLanguages typedAndChosen generateTwice))
         = "Hello").
Proof.
  split; [split; vm_compute; reflexivity |].
  split; (split; [vm_compute; reflexivity |]); split; vm_compute; reflexivity.
Qed.
